(** * osmoutil-go: resilience primitives, embedded and verified

    A shallow embedding of four packages of the repository:
    - [retry]          (retry/retry.go): linear-backoff retry loop;
    - [circuitbreaker] (circuitbreaker/circuitbreaker.go): three-state breaker;
    - [tx]             (tx/nonce_tracker.go): sequence (nonce) tracker;
    - [async]          (async/async_request_processor.go): bounded worker.

    Conventions.  Go's [int], [int64] and [time.Duration] are 64-bit signed
    integers: they are [Z] with the wrap-around written out ([wrap64]).
    [uint64] is [Z] reduced modulo 2^64.  A [time.Time] is the number of
    nanoseconds since the zero [time.Time]; every clock reading a function
    makes ([time.Now], [time.Since]) is an explicit argument.  A Go [error]
    is [option error], [None] being [nil].  Caller-supplied closures act on
    an explicit world [W].  Each [select] statement is resolved by the
    environment: the branch that fires is an explicit argument. *)

From Stdlib Require Import ZArith List String Ascii Bool Lia DecimalString.
Import ListNotations.
Open Scope Z_scope.

(** ** The parts of Go's runtime and standard library the code relies on *)

Module Go.

(** 64-bit signed wrap-around of [int], [int64], [time.Duration]. *)
Definition wrap64 (z : Z) : Z := (z + 2 ^ 63) mod 2 ^ 64 - 2 ^ 63.

(** 64-bit unsigned wrap-around of [uint64]. *)
Definition uwrap64 (z : Z) : Z := z mod 2 ^ 64.

Definition maxInt64 : Z := 2 ^ 63 - 1.
Definition minInt64 : Z := - 2 ^ 63.

(** [time.Duration]: nanoseconds, an [int64]. *)
Definition Duration : Type := Z.

(** [time.Time]: nanoseconds since the zero [Time]. *)
Definition Time : Type := Z.

Definition zeroTime : Time := 0.

Definition Second : Duration := 1000000000.

(** [t.Sub(u)]: the difference, saturated to the range of [Duration]. *)
Definition Sub (t u : Time) : Duration :=
  if t - u <? minInt64 then minInt64
  else if maxInt64 <? t - u then maxInt64
  else t - u.

(** [time.Since(t)] is [time.Now().Sub(t)]; [now] is the clock reading. *)
Definition Since (now t : Time) : Duration := Sub now t.

(** The concrete error values the packages create or pass on:
    [errors.New] / [fmt.Errorf] without [%w] give an [*errorString],
    [fmt.Errorf] with one [%w] gives a [*wrapError] holding the rendered
    message and the wrapped error, and [context] has its two sentinels. *)
Inductive error : Type :=
| errorString (s : string)
| wrapError (msg : string) (err : error)
| Canceled
| DeadlineExceeded.

(** The [Error() string] method. *)
Definition Error (e : error) : string :=
  match e with
  | errorString s => s
  | wrapError msg _ => msg
  | Canceled => "context canceled"
  | DeadlineExceeded => "context deadline exceeded"
  end.

(** [errors.Unwrap]. *)
Definition Unwrap (e : error) : option error :=
  match e with
  | wrapError _ err => Some err
  | _ => None
  end.

(** [strings.ToLower], on its ASCII path: bytes ['A'..'Z'] are moved by
    [+32], every other byte is kept.  (On strings that hold non-ASCII
    runes Go additionally lower-cases those runes.) *)
Definition toLowerByte (c : ascii) : ascii :=
  let n := nat_of_ascii c in
  if (Nat.leb 65 n && Nat.leb n 90)%bool then ascii_of_nat (n + 32) else c.

Fixpoint ToLower (s : string) : string :=
  match s with
  | EmptyString => EmptyString
  | String c s' => String (toLowerByte c) (ToLower s')
  end.

(** [strings.HasPrefix(s, p)]. *)
Fixpoint HasPrefix (s p : string) {struct p} : bool :=
  match p, s with
  | EmptyString, _ => true
  | String _ _, EmptyString => false
  | String a p', String b s' => (Ascii.eqb a b && HasPrefix s' p')%bool
  end.

(** [strings.Contains(s, substr)]: [substr] occurs at some offset of [s]. *)
Fixpoint Contains (s substr : string) : bool :=
  if HasPrefix s substr then true
  else match s with
       | EmptyString => false
       | String _ s' => Contains s' substr
       end.

End Go.

Import Go.

(** ** retry/retry.go *)

Module retry.

Record RetryConfig : Type := {
  MaxDuration : Duration;
  InitialInterval : Duration;
  MaxInterval : Duration;
  IntervalIncrement : Duration
}.

(** [isNonRetriable]: a [nil] error or an empty pattern list is never
    non-retriable; otherwise some lower-cased pattern must occur in the
    lower-cased message. *)
Definition isNonRetriable (err : option error) (nonRetriablePatterns : list string) : bool :=
  match err with
  | None => false
  | Some e =>
      match nonRetriablePatterns with
      | [] => false
      | _ =>
          let errStr := ToLower (Error e) in
          existsb (fun pattern => Contains errStr (ToLower pattern)) nonRetriablePatterns
      end
  end.

(** The branch of the [select] in the retry loop that fires after a failed,
    retriable attempt. *)
Inductive selected : Type :=
| ctxDone (ctxErr : error)   (* case <-ctx.Done(): [ctx.Err()] is [ctxErr] *)
| timerC                     (* case <-timer.C *)
| afterInterval.             (* case <-time.After(interval) *)

(** What a run of the loop has produced when the given resolutions of the
    [select] are used up: it has returned, or it is about to block in a
    further [select]. *)
Inductive outcome : Type :=
| Returned (err : option error)
| Selecting.

Section RetryWithBackoff.

(** [time.Duration.String], as used by the [%v] verb. *)
Variable DurationString : Duration -> string.

Context {Ctx W : Type}.

Variable ctx : Ctx.
Variable cfg : RetryConfig.
Variable operation : Ctx -> W -> option error * W.
Variable nonRetriablePatterns : list string.

(** [fmt.Errorf("operation timed out after %v: %w", cfg.MaxDuration, err)] *)
Definition timedOut (err : error) : error :=
  wrapError ("operation timed out after " ++ DurationString (MaxDuration cfg)
             ++ ": " ++ Error err) err.

(** The [for] loop; [sels] resolves the successive [select]s. *)
Fixpoint retryLoop (sels : list selected) (interval : Duration) (w : W)
  : outcome * W :=
  match operation ctx w with
  | (None, w') => (Returned None, w')
  | (Some err, w') =>
      if isNonRetriable (Some err) nonRetriablePatterns
      then (Returned (Some err), w')
      else
        match sels with
        | [] => (Selecting, w')
        | ctxDone ctxErr :: _ => (Returned (Some ctxErr), w')
        | timerC :: _ => (Returned (Some (timedOut err)), w')
        | afterInterval :: sels' =>
            retryLoop sels'
              (Z.min (wrap64 (interval + IntervalIncrement cfg)) (MaxInterval cfg)) w'
        end
  end.

Definition RetryWithBackoff (sels : list selected) (w : W) : outcome * W :=
  retryLoop sels (InitialInterval cfg) w.

(** The world after the first [k] invocations of the operation. *)
Fixpoint afterCalls (k : nat) (w : W) : W :=
  match k with
  | O => w
  | S k' => afterCalls k' (snd (operation ctx w))
  end.

End RetryWithBackoff.

(** In the spec's words: [pattern] is a case-insensitive substring of [s],
    that is, some substring of [s] equals [pattern] when the case of
    letters is ignored. *)
Definition occursIgnoringCase (pattern s : string) : Prop :=
  exists pre mid post : string,
    s = (pre ++ mid ++ post)%string /\ ToLower mid = ToLower pattern.

(** A closure that counts its invocations, as the tests' [callCount++]. *)
Definition counting {Ctx W : Type} (operation : Ctx -> W -> option error * W)
  : Ctx -> W * nat -> option error * (W * nat) :=
  fun c '(w, n) => let '(r, w') := operation c w in (r, (w', S n)).



End retry.

(** ** circuitbreaker/circuitbreaker.go *)

Module circuitbreaker.

Inductive State : Type :=
| StateClosed
| StateHalfOpen
| StateOpen.

Definition State_eqb (a b : State) : bool :=
  match a, b with
  | StateClosed, StateClosed => true
  | StateHalfOpen, StateHalfOpen => true
  | StateOpen, StateOpen => true
  | _, _ => false
  end.

Section Breaker.

(** The world the operation and the two callbacks act on. *)
Variable W : Type.

Record circuitBreaker : Type := {
  failureThreshold : Z;
  resetTimeout : Duration;
  currentState : State;
  failureCount : Z;
  lastFailureTime : Time;
  successCount : Z;
  onStateChange : State -> State -> W -> W;
  onError : error -> W -> W
}.

Record Options : Type := {
  FailureThreshold : Z;
  ResetTimeout : Duration;
  OnStateChange : option (State -> State -> W -> W);
  OnError : option (error -> W -> W)
}.

Definition New (options : Options) : circuitBreaker :=
  {| failureThreshold :=
       if FailureThreshold options <=? 0 then 5 else FailureThreshold options;
     resetTimeout :=
       if ResetTimeout options <=? 0 then 60 * Second else ResetTimeout options;
     currentState := StateClosed;
     failureCount := 0;
     lastFailureTime := zeroTime;
     successCount := 0;
     onStateChange :=
       match OnStateChange options with
       | Some f => f
       | None => fun _ _ w => w
       end;
     onError :=
       match OnError options with
       | Some f => f
       | None => fun _ w => w
       end |}.

Definition toState (cb : circuitBreaker) (newState : State) (w : W)
  : circuitBreaker * W :=
  if State_eqb (currentState cb) newState then (cb, w)
  else
    let oldState := currentState cb in
    ({| failureThreshold := failureThreshold cb;
        resetTimeout := resetTimeout cb;
        currentState := newState;
        failureCount := 0;
        lastFailureTime := lastFailureTime cb;
        successCount := 0;
        onStateChange := onStateChange cb;
        onError := onError cb |},
     onStateChange cb oldState newState w).

Definition toHalfOpen (cb : circuitBreaker) (w : W) : circuitBreaker * W :=
  toState cb StateHalfOpen w.

(** [now] is the clock read by [time.Since] in the [StateOpen] case. *)
Definition allowRequest (cb : circuitBreaker) (now : Time) (w : W)
  : bool * circuitBreaker * W :=
  match currentState cb with
  | StateClosed => (true, cb, w)
  | StateHalfOpen => (true, cb, w)
  | StateOpen =>
      if resetTimeout cb <? Since now (lastFailureTime cb)
      then let '(cb', w') := toHalfOpen cb w in (true, cb', w')
      else (false, cb, w)
  end.

Definition onSuccess (cb : circuitBreaker) (w : W) : circuitBreaker * W :=
  match currentState cb with
  | StateHalfOpen =>
      let cb1 :=
        {| failureThreshold := failureThreshold cb;
           resetTimeout := resetTimeout cb;
           currentState := currentState cb;
           failureCount := failureCount cb;
           lastFailureTime := lastFailureTime cb;
           successCount := wrap64 (successCount cb + 1);
           onStateChange := onStateChange cb;
           onError := onError cb |} in
      if 2 <=? successCount cb1 then toState cb1 StateClosed w else (cb1, w)
  | StateClosed =>
      ({| failureThreshold := failureThreshold cb;
          resetTimeout := resetTimeout cb;
          currentState := currentState cb;
          failureCount := 0;
          lastFailureTime := lastFailureTime cb;
          successCount := successCount cb;
          onStateChange := onStateChange cb;
          onError := onError cb |}, w)
  | StateOpen => (cb, w)
  end.

(** [now] is the clock read by [time.Now()]. *)
Definition onFailure (cb : circuitBreaker) (now : Time) (err : error) (w : W)
  : circuitBreaker * W :=
  let cb1 :=
    {| failureThreshold := failureThreshold cb;
       resetTimeout := resetTimeout cb;
       currentState := currentState cb;
       failureCount := wrap64 (failureCount cb + 1);
       lastFailureTime := now;
       successCount := successCount cb;
       onStateChange := onStateChange cb;
       onError := onError cb |} in
  let '(cb2, w2) :=
    if (State_eqb (currentState cb1) StateClosed
        && (failureThreshold cb1 <=? failureCount cb1))%bool
    then toState cb1 StateOpen w
    else if State_eqb (currentState cb1) StateHalfOpen
         then toState cb1 StateOpen w
         else (cb1, w) in
  (cb2, onError cb2 err w2).

Definition handleResult (cb : circuitBreaker) (now : Time) (err : option error) (w : W)
  : circuitBreaker * W :=
  match err with
  | Some e => onFailure cb now e w
  | None => onSuccess cb w
  end.

Definition errCircuitOpen : error := errorString "circuit breaker is open".

(** [Execute]; [admitClock] is the clock seen by [allowRequest],
    [resultClock] the one seen by [handleResult]. *)
Definition Execute (cb : circuitBreaker) (admitClock resultClock : Time)
    (operation : W -> option error * W) (w : W)
  : option error * circuitBreaker * W :=
  let '(allowed, cb1, w1) := allowRequest cb admitClock w in
  if negb allowed then (Some errCircuitOpen, cb1, w1)
  else
    let '(err, w2) := operation w1 in
    let '(cb2, w3) := handleResult cb1 resultClock err w2 in
    (err, cb2, w3).

Definition GetState (cb : circuitBreaker) : State := currentState cb.

(** One [Execute] call of a caller: its operation and the two clock
    readings the call makes. *)
Record call : Type := {
  admitClock : Time;
  resultClock : Time;
  operation : W -> option error * W
}.

(** Consecutive [Execute] calls; the errors they return, in order. *)
Fixpoint ExecuteAll (cb : circuitBreaker) (calls : list call) (w : W)
  : list (option error) * circuitBreaker * W :=
  match calls with
  | [] => ([], cb, w)
  | c :: calls' =>
      let '(err, cb1, w1) := Execute cb (admitClock c) (resultClock c) (operation c) w in
      let '(errs, cb2, w2) := ExecuteAll cb1 calls' w1 in
      (err :: errs, cb2, w2)
  end.

End Breaker.

Arguments failureThreshold {W} _.
Arguments resetTimeout {W} _.
Arguments currentState {W} _.
Arguments failureCount {W} _.
Arguments lastFailureTime {W} _.
Arguments successCount {W} _.
Arguments onStateChange {W} _.
Arguments onError {W} _.
Arguments New {W} _.
Arguments toState {W} _ _ _.
Arguments toHalfOpen {W} _ _.
Arguments allowRequest {W} _ _ _.
Arguments onSuccess {W} _ _.
Arguments onFailure {W} _ _ _ _.
Arguments handleResult {W} _ _ _ _.
Arguments Execute {W} _ _ _ _ _.
Arguments GetState {W} _.
Arguments admitClock {W} _.
Arguments resultClock {W} _.
Arguments operation {W} _.
Arguments ExecuteAll {W} _ _ _.

(** A state-change callback that appends to a log, as the tests'
    [stateChanges = append(stateChanges, ...)], and the lifting of an
    operation and of an error callback that do not touch the log. *)
Definition recordChange {U : Type} (from to : State)
    (w : list (State * State) * U) : list (State * State) * U :=
  (fst w ++ [(from, to)], snd w).

Definition besideLog {U : Type} (f : U -> option error * U)
    (w : list (State * State) * U) : option error * (list (State * State) * U) :=
  (fst (f (snd w)), (fst w, snd (f (snd w)))).

Definition errorBesideLog {U : Type} (f : error -> U -> U) (e : error)
    (w : list (State * State) * U) : list (State * State) * U :=
  (fst w, f e (snd w)).

Arguments FailureThreshold {W} _.
Arguments ResetTimeout {W} _.
Arguments OnStateChange {W} _.
Arguments OnError {W} _.

(** The breakers a program can hold: built by [New] (the threshold is an
    [int]) and used through [Execute]. *)
Inductive reachable {W : Type} : circuitBreaker W -> Prop :=
| reachable_New (options : Options W) :
    FailureThreshold options <= maxInt64 -> reachable (New options)
| reachable_Execute (cb : circuitBreaker W) (t1 t2 : Time)
    (op : W -> option error * W) (w : W) :
    reachable cb -> reachable (snd (fst (Execute cb t1 t2 op w))).

(** The range the counters stay in between calls. *)
Definition countersInRange {W : Type} (cb : circuitBreaker W) : Prop :=
  0 < failureThreshold cb <= maxInt64
  /\ match currentState cb with
     | StateClosed => 0 <= failureCount cb < failureThreshold cb
     | StateHalfOpen => 0 <= successCount cb <= 1
     | StateOpen => True
     end.

(** What never changes in a breaker. *)
Definition sameSetup {W : Type} (cb cb' : circuitBreaker W) : Prop :=
  failureThreshold cb' = failureThreshold cb
  /\ resetTimeout cb' = resetTimeout cb
  /\ onStateChange cb' = onStateChange cb
  /\ onError cb' = onError cb.

(** An operation that succeeds, or fails, whenever it is invoked. *)
Definition succeeds {W : Type} (op : W -> option error * W) : Prop :=
  forall w, fst (op w) = None.

Definition fails {W : Type} (op : W -> option error * W) : Prop :=
  forall w, fst (op w) <> None.


(** A call whose operation fails whenever it is invoked. *)
Definition failing {W : Type} (c : call W) : Prop := fails (operation c).


(** The clock readings of the call lie between [t0] and [t0 + d]. *)
Definition within {W : Type} (t0 : Time) (d : Duration) (c : call W) : Prop :=
  t0 <= admitClock c <= t0 + d /\ t0 <= resultClock c <= t0 + d.





End circuitbreaker.

(** ** tx/nonce_tracker.go *)

Module tx.

(** [Nonce] and [Accnum] are [uint64]. *)
Record NonceResponse : Type := {
  Nonce : Z;
  Accnum : Z
}.

(** The zero value [NonceResponse{}]. *)
Definition zeroNonceResponse : NonceResponse := {| Nonce := 0; Accnum := 0 |}.

(** The tracker.  Its mutex makes each method atomic, so a method is a
    function of the tracker; [cancelCh] is never used; what [fetchNonce]
    delivers reaches the tracker through [refetched] below. *)
Record NonceTracker : Type := {
  nonceData : NonceResponse;
  forceRefetchInterval : Duration;
  refetchTimeout : Duration;
  isFirstFetch : bool;
  lastRefetch : Time
}.

Definition NewNonceTracker (forceRefetchInterval refetchTimeout : Duration) : NonceTracker :=
  {| nonceData := zeroNonceResponse;
     forceRefetchInterval := forceRefetchInterval;
     refetchTimeout := refetchTimeout;
     isFirstFetch := true;
     lastRefetch := zeroTime |}.

Definition GetLastRefetchTime (n : NonceTracker) : Time := lastRefetch n.

Definition IncrementAndGet (n : NonceTracker) : NonceTracker * NonceResponse :=
  let n' :=
    if negb (isFirstFetch n)
    then {| nonceData := {| Nonce := uwrap64 (Nonce (nonceData n) + 1);
                            Accnum := Accnum (nonceData n) |};
            forceRefetchInterval := forceRefetchInterval n;
            refetchTimeout := refetchTimeout n;
            isFirstFetch := isFirstFetch n;
            lastRefetch := lastRefetch n |}
    else {| nonceData := nonceData n;
            forceRefetchInterval := forceRefetchInterval n;
            refetchTimeout := refetchTimeout n;
            isFirstFetch := false;
            lastRefetch := lastRefetch n |} in
  (n', nonceData n').

(** The branch of the [select] in [refetchAndUpdateNonce] that fires: the
    timeout context is done first, or the goroutine running [fetchNonce]
    has delivered what the fetch returned. *)
Inductive refetched : Type :=
| ctxDone (ctxErr : error)                             (* case <-ctx.Done() *)
| received (nonce : NonceResponse) (err : option error). (* case res := <-ch *)

(** [now] is the clock read by [time.Now()] when the record is stored. *)
Definition refetchAndUpdateNonce (n : NonceTracker) (ev : refetched) (now : Time)
  : NonceTracker * (NonceResponse * option error) :=
  match ev with
  | ctxDone ctxErr => (n, (zeroNonceResponse, Some ctxErr))
  | received _ (Some err) => (n, (zeroNonceResponse, Some err))
  | received nonce None =>
      let n' := {| nonceData := nonce;
                   forceRefetchInterval := forceRefetchInterval n;
                   refetchTimeout := refetchTimeout n;
                   isFirstFetch := isFirstFetch n;
                   lastRefetch := now |} in
      (n', (nonceData n', None))
  end.

Section ForceRefetch.

(** [time.Duration.String], as used by the [%s] verb. *)
Variable DurationString : Duration -> string.

(** [fmt.Errorf("failed to force refetch time since (%s), force refetch
    interval (%s)", timeSince, n.forceRefetchInterval)] *)
Definition errTooSoon (timeSince interval : Duration) : error :=
  errorString ("failed to force refetch time since (" ++ DurationString timeSince
               ++ "), force refetch interval (" ++ DurationString interval ++ ")").

(** [now] is the clock read by [time.Since]; [ev] and [storeClock] are
    what the refetch, if it is made, observes. *)
Definition ForceRefetch (n : NonceTracker) (now : Time) (ev : refetched)
    (storeClock : Time) : NonceTracker * (NonceResponse * option error) :=
  let timeSince := Since now (lastRefetch n) in
  if forceRefetchInterval n <? timeSince
  then refetchAndUpdateNonce n ev storeClock
  else (n, (zeroNonceResponse, Some (errTooSoon timeSince (forceRefetchInterval n)))).

End ForceRefetch.

(** [k] consecutive [IncrementAndGet] calls and what they return. *)
Fixpoint IncrementAndGetTimes (k : nat) (n : NonceTracker)
  : NonceTracker * list NonceResponse :=
  match k with
  | O => (n, [])
  | S k' =>
      let '(n1, r) := IncrementAndGet n in
      let '(n2, rs) := IncrementAndGetTimes k' n1 in
      (n2, r :: rs)
  end.

(** The records [k] calls hand out when the sequence numbers run from
    [nonce + start] on, modulo 2^64, the account number being [accnum]. *)
Definition sequenceFrom (nonce accnum : Z) (start k : nat) : list NonceResponse :=
  map (fun i : nat => {| Nonce := uwrap64 (nonce + Z.of_nat i); Accnum := accnum |})
      (seq start k).

Section WithRefetch.

(** [time.Duration.String], as used by the [%s] verb. *)
Variable DurationString : Duration -> string.

(** [NewNonceTrackerWithRefetch]; the tracker returned is [None] for [nil],
    the error is [fmt.Errorf("failed to force refetch nonce tracker: %v", err)].
    The arguments after the two durations are what [ForceRefetch] observes. *)
Definition NewNonceTrackerWithRefetch (forceRefetchInterval refetchTimeout : Duration)
    (now : Time) (ev : refetched) (storeClock : Time)
  : option NonceTracker * option error :=
  let nonceTracker := NewNonceTracker forceRefetchInterval refetchTimeout in
  match ForceRefetch DurationString nonceTracker now ev storeClock with
  | (_, (_, Some err)) =>
      (None, Some (errorString ("failed to force refetch nonce tracker: " ++ Error err)))
  | (nonceTracker', (_, None)) => (Some nonceTracker', None)
  end.

End WithRefetch.

End tx.

(** ** async/async_request_processor.go *)

Module async.

Import retry.

(** A [context.Context] as the processing function sees it: whether it is
    already cancelled, and the timeouts attached on the way down. *)
Record Context : Type := {
  cancelled : bool;
  timeouts : list Duration
}.

(** [context.WithCancel(context.Background())], before [cancel] is called. *)
Definition Background : Context := {| cancelled := false; timeouts := [] |}.

(** [context.WithTimeout(parent, d)]. *)
Definition WithTimeout (parent : Context) (d : Duration) : Context :=
  {| cancelled := cancelled parent; timeouts := d :: timeouts parent |}.

(** The effect of the [cancel] function of the context. *)
Definition cancel (c : Context) : Context :=
  {| cancelled := true; timeouts := timeouts c |}.

(** A computation that may end in a run-time panic. *)
Inductive exec (A : Type) : Type :=
| Ok (a : A)
| Panic (msg : string).

Arguments Ok {A} _.
Arguments Panic {A} _.

Definition nilDereference : string :=
  "runtime error: invalid memory address or nil pointer dereference".

Section Processor.

(** Payload and result types, the zero value of the result type, the
    world the processing function acts on. *)
Variables T R W : Type.
Variable zeroR : R.

(** [time.Duration.String], used by the retry loop's time-out error. *)
Variable DurationString : Duration -> string.

Record Request : Type := {
  ID : string;
  Data : T;
  CreatedAt : Time
}.

Record Response : Type := {
  RequestID : string;
  ResponseData : R;
  ResponseError : option error;
  ResponseDuration : Duration
}.

(** [RequestProcessor.Process] *)
Variable Process : Context -> Request -> W -> (R * option error) * W.

(** The processor.  A buffered channel is the list of the values it
    holds, oldest first, with [bufferSize] its capacity (at least 1: an
    unbuffered channel is not modelled); [wg] is the counter of the
    [sync.WaitGroup]; [retryConfig] is a pointer, [None] being [nil].
    The [processor] field is the [Process] above, the [cancel] field is
    [cancel] applied to [ctx], and [maxRetries] is never read. *)
Record AsyncRequestProcessor : Type := {
  requestChan : list Request;
  responseChan : list Response;
  responseClosed : bool;
  bufferSize : nat;
  wg : nat;
  ctx : Context;
  retryConfig : option RetryConfig
}.

Definition NewAsyncRequstProcessor (bufferSize : nat)
    (retryConfig : option RetryConfig) : AsyncRequestProcessor :=
  {| requestChan := [];
     responseChan := [];
     responseClosed := false;
     bufferSize := bufferSize;
     wg := 0;
     ctx := Background;
     retryConfig := retryConfig |}.

(** [NoRetryConfig] *)
Definition NoRetryConfig : option RetryConfig := None.

(** The body of [process] once [w.retryConfig] has been dereferenced. *)
Definition processWith (p : AsyncRequestProcessor) (cfg : RetryConfig)
    (req : Request) (w : W) : (R * option error) * W :=
  let reqCtx := WithTimeout (ctx p) (MaxDuration cfg) in
  Process reqCtx req w.

(** [process]: [w.retryConfig.MaxDuration] is evaluated first. *)
Definition process (p : AsyncRequestProcessor) (req : Request) (w : W)
  : exec ((R * option error) * W) :=
  match retryConfig p with
  | None => Panic nilDereference
  | Some cfg => Ok (processWith p cfg req w)
  end.

(** The closure handed to [RetryWithBackoff]: it assigns the captured
    [responseData] and returns the error of [w.process(req)].  It is
    built only where [w.retryConfig] is not [nil]. *)
Definition retried (p : AsyncRequestProcessor) (cfg : RetryConfig) (req : Request)
  : Context -> R * W -> option error * (R * W) :=
  fun _ st =>
    let '((responseData, err), w') := processWith p cfg req (snd st) in
    (err, (responseData, w')).

(** [processRequest] up to the [select] that sends the response:
    [startClock] and [endClock] are the clocks read by [time.Now] and
    [time.Since]; [sels] resolves the [select]s of the retry loop.  The
    result is [None] while the retry loop is still blocked. *)
Definition buildResponse (p : AsyncRequestProcessor) (req : Request)
    (sels : list selected) (startClock endClock : Time) (w : W)
  : exec (option (Response * W)) :=
  match retryConfig p with
  | None =>
      match process p req w with
      | Panic msg => Panic msg
      | Ok ((responseData, err), w') =>
          Ok (Some ({| RequestID := ID req;
                       ResponseData := responseData;
                       ResponseError := err;
                       ResponseDuration := Since endClock startClock |}, w'))
      end
  | Some cfg =>
      match RetryWithBackoff DurationString (ctx p) cfg (retried p cfg req) []
              sels (zeroR, w) with
      | (Returned err, (responseData, w')) =>
          Ok (Some ({| RequestID := ID req;
                       ResponseData := responseData;
                       ResponseError := err;
                       ResponseDuration := Since endClock startClock |}, w'))
      | (Selecting, _) => Ok None
      end
  end.

(** Where the worker goroutine stands. *)
Inductive goroutine : Type :=
| notStarted
| atLoopSelect                                        (* the outer [select] of [processLoop] *)
| atDrainSelect                                       (* the inner [select], after [ctx.Done()] *)
| inProcessRequest (draining : bool) (req : Request)  (* in [processRequest], response not built *)
| atSendSelect (draining : bool) (req : Request) (resp : Response) (* the [select] of [processRequest] *)
| exited                                              (* returned; [wg.Done()] has run *)
| panicked (msg : string).

(** Where the caller of [Stop] stands. *)
Inductive stopping : Type :=
| stopNotCalled
| stopCancelled   (* [w.cancel()] done *)
| stopWaited      (* [w.wg.Wait()] returned *)
| stopReturned.   (* [close(w.responseChan)] done *)

(** The processor, its worker, the caller of [Stop], the world, and the
    history: the requests [Submit] accepted, the requests the worker is
    done with (request, response, whether the response was pushed to
    [responseChan]), the responses consumers have received. *)
Record system : Type := {
  proc : AsyncRequestProcessor;
  worker : goroutine;
  stopper : stopping;
  world : W;
  accepted : list Request;
  handled : list (Request * Response * bool);
  delivered : list Response
}.

Definition initial (p : AsyncRequestProcessor) (w : W) : system :=
  {| proc := p; worker := notStarted; stopper := stopNotCalled; world := w;
     accepted := []; handled := []; delivered := [] |}.

(** The branch a [select] takes. *)
Inductive branch : Type :=
| onDone       (* case <-w.ctx.Done() *)
| onChannel    (* the channel send or receive of the [select] *)
| onDefault.   (* default *)

(** The atomic steps of the goroutines. *)
Inductive action : Type :=
| Start
| Submit (req : Request) (b : branch)
| StopCancel
| StopWait
| StopClose
| Receive
| WorkerSelect (b : branch)
| WorkerBuild (sels : list selected) (startClock endClock : Time).

Definition hasRoom {A : Type} (ch : list A) (capacity : nat) : bool :=
  Nat.ltb (List.length ch) capacity.

Definition setRequestChan (p : AsyncRequestProcessor) (ch : list Request) :=
  {| requestChan := ch; responseChan := responseChan p;
     responseClosed := responseClosed p; bufferSize := bufferSize p;
     wg := wg p; ctx := ctx p; retryConfig := retryConfig p |}.

Definition setResponseChan (p : AsyncRequestProcessor) (ch : list Response) :=
  {| requestChan := requestChan p; responseChan := ch;
     responseClosed := responseClosed p; bufferSize := bufferSize p;
     wg := wg p; ctx := ctx p; retryConfig := retryConfig p |}.

Definition setResponseClosed (p : AsyncRequestProcessor) :=
  {| requestChan := requestChan p; responseChan := responseChan p;
     responseClosed := true; bufferSize := bufferSize p;
     wg := wg p; ctx := ctx p; retryConfig := retryConfig p |}.

Definition setWg (p : AsyncRequestProcessor) (n : nat) :=
  {| requestChan := requestChan p; responseChan := responseChan p;
     responseClosed := responseClosed p; bufferSize := bufferSize p;
     wg := n; ctx := ctx p; retryConfig := retryConfig p |}.

Definition setCtx (p : AsyncRequestProcessor) (c : Context) :=
  {| requestChan := requestChan p; responseChan := responseChan p;
     responseClosed := responseClosed p; bufferSize := bufferSize p;
     wg := wg p; ctx := c; retryConfig := retryConfig p |}.

Definition setProc (s : system) (p : AsyncRequestProcessor) :=
  {| proc := p; worker := worker s; stopper := stopper s; world := world s;
     accepted := accepted s; handled := handled s; delivered := delivered s |}.

Definition setWorker (s : system) (g : goroutine) :=
  {| proc := proc s; worker := g; stopper := stopper s; world := world s;
     accepted := accepted s; handled := handled s; delivered := delivered s |}.

Definition setStopper (s : system) (st : stopping) :=
  {| proc := proc s; worker := worker s; stopper := st; world := world s;
     accepted := accepted s; handled := handled s; delivered := delivered s |}.

Definition setWorld (s : system) (w : W) :=
  {| proc := proc s; worker := worker s; stopper := stopper s; world := w;
     accepted := accepted s; handled := handled s; delivered := delivered s |}.

Definition noteAccepted (s : system) (req : Request) :=
  {| proc := proc s; worker := worker s; stopper := stopper s; world := world s;
     accepted := accepted s ++ [req]; handled := handled s; delivered := delivered s |}.

Definition noteHandled (s : system) (req : Request) (resp : Response) (pushed : bool) :=
  {| proc := proc s; worker := worker s; stopper := stopper s; world := world s;
     accepted := accepted s; handled := handled s ++ [(req, resp, pushed)];
     delivered := delivered s |}.

Definition noteDelivered (s : system) (resp : Response) :=
  {| proc := proc s; worker := worker s; stopper := stopper s; world := world s;
     accepted := accepted s; handled := handled s; delivered := delivered s ++ [resp] |}.

(** The loop the worker goes back to after [processRequest]. *)
Definition backTo (draining : bool) : goroutine :=
  if draining then atDrainSelect else atLoopSelect.

(** [Start]: [w.wg.Add(1); go w.processLoop()] (one worker is modelled). *)
Definition stepStart (s : system) : option system :=
  match worker s with
  | notStarted =>
      Some (setWorker (setProc s (setWg (proc s) (S (wg (proc s))))) atLoopSelect)
  | _ => None
  end.

(** [Submit]: the three branches of its [select]; only the channel
    branch returns [true]. *)
Definition stepSubmit (req : Request) (b : branch) (s : system) : option system :=
  let p := proc s in
  match b with
  | onDone => if cancelled (ctx p) then Some s else None
  | onChannel =>
      if hasRoom (requestChan p) (bufferSize p)
      then Some (noteAccepted (setProc s (setRequestChan p (requestChan p ++ [req]))) req)
      else None
  | onDefault =>
      if (negb (cancelled (ctx p)) && negb (hasRoom (requestChan p) (bufferSize p)))%bool
      then Some s else None
  end.

(** [Stop], statement by statement. *)
Definition stepStopCancel (s : system) : option system :=
  match stopper s with
  | stopNotCalled =>
      Some (setStopper (setProc s (setCtx (proc s) (cancel (ctx (proc s))))) stopCancelled)
  | _ => None
  end.

Definition stepStopWait (s : system) : option system :=
  match stopper s, wg (proc s) with
  | stopCancelled, O => Some (setStopper s stopWaited)
  | _, _ => None
  end.

Definition stepStopClose (s : system) : option system :=
  match stopper s with
  | stopWaited => Some (setStopper (setProc s (setResponseClosed (proc s))) stopReturned)
  | _ => None
  end.

(** A consumer receives from [Responses()]. *)
Definition stepReceive (s : system) : option system :=
  match responseChan (proc s) with
  | resp :: rest => Some (noteDelivered (setProc s (setResponseChan (proc s) rest)) resp)
  | [] => None
  end.

(** The [select]s of the worker: the outer one of [processLoop], the
    inner draining one, and the one of [processRequest]. *)
Definition stepWorkerSelect (b : branch) (s : system) : option system :=
  let p := proc s in
  match worker s, b with
  | atLoopSelect, onDone =>
      if cancelled (ctx p) then Some (setWorker s atDrainSelect) else None
  | atLoopSelect, onChannel =>
      match requestChan p with
      | req :: rest =>
          Some (setWorker (setProc s (setRequestChan p rest)) (inProcessRequest false req))
      | [] => None
      end
  | atDrainSelect, onChannel =>
      match requestChan p with
      | req :: rest =>
          Some (setWorker (setProc s (setRequestChan p rest)) (inProcessRequest true req))
      | [] => None
      end
  | atDrainSelect, onDefault =>
      match requestChan p with
      | [] => Some (setWorker (setProc s (setWg p (Nat.pred (wg p)))) exited)
      | _ :: _ => None
      end
  | atSendSelect draining req resp, onChannel =>
      if responseClosed p
      then Some (setWorker s (panicked "send on closed channel"))
      else if hasRoom (responseChan p) (bufferSize p)
           then Some (setWorker
                        (noteHandled (setProc s (setResponseChan p (responseChan p ++ [resp])))
                           req resp true)
                        (backTo draining))
           else None
  | atSendSelect draining req resp, onDone =>
      if cancelled (ctx p)
      then Some (setWorker (noteHandled s req resp false) (backTo draining))
      else None
  | _, _ => None
  end.

(** The worker runs [processRequest] up to its [select]. *)
Definition stepWorkerBuild (sels : list selected) (startClock endClock : Time)
    (s : system) : option system :=
  match worker s with
  | inProcessRequest draining req =>
      match buildResponse (proc s) req sels startClock endClock (world s) with
      | Panic msg => Some (setWorker s (panicked msg))
      | Ok None => None
      | Ok (Some (resp, w')) => Some (setWorker (setWorld s w') (atSendSelect draining req resp))
      end
  | _ => None
  end.

(** One atomic step; [None] when the step cannot be taken in this
    state.  A panic of the worker goroutine ends the program. *)
Definition step (a : action) (s : system) : option system :=
  match worker s with
  | panicked _ => None
  | _ =>
      match a with
      | Start => stepStart s
      | Submit req b => stepSubmit req b s
      | StopCancel => stepStopCancel s
      | StopWait => stepStopWait s
      | StopClose => stepStopClose s
      | Receive => stepReceive s
      | WorkerSelect b => stepWorkerSelect b s
      | WorkerBuild sels startClock endClock => stepWorkerBuild sels startClock endClock s
      end
  end.

(** An interleaving of the goroutines' steps. *)
Fixpoint run (tr : list action) (s : system) : option system :=
  match tr with
  | [] => Some s
  | a :: tr' =>
      match step a s with
      | Some s' => run tr' s'
      | None => None
      end
  end.

Definition isSubmit (a : action) : bool :=
  match a with
  | Submit _ _ => true
  | _ => false
  end.

(** The responses pushed to [responseChan], in order. *)
Definition pushed (s : system) : list Response :=
  map (fun h => snd (fst h)) (filter (fun h => snd h) (handled s)).

(** The requests [processRequest] has been run on, in order. *)
Definition processed (s : system) : list Request :=
  map (fun h => fst (fst h)) (handled s).

(** The request the worker holds, taken from [requestChan] and not yet
    done with. *)
Definition inflight (g : goroutine) : list Request :=
  match g with
  | inProcessRequest _ req => [req]
  | atSendSelect _ req _ => [req]
  | _ => []
  end.

(** The worker has seen [ctx.Done()] in [processLoop]. *)
Definition sawDone (g : goroutine) : bool :=
  match g with
  | atDrainSelect => true
  | inProcessRequest draining _ => draining
  | atSendSelect draining _ _ => draining
  | exited => true
  | _ => false
  end.

(** What holds of every state that a started processor with a retry policy
    reaches. *)
Definition consistent (s : system) : Prop :=
  retryConfig (proc s) <> None
  /\ accepted s = processed s ++ inflight (worker s) ++ requestChan (proc s)
  /\ delivered s ++ responseChan (proc s) = pushed s
  /\ Forall (fun h => RequestID (snd (fst h)) = ID (fst (fst h))) (handled s)
  /\ (forall draining req resp,
        worker s = atSendSelect draining req resp -> RequestID resp = ID req)
  /\ worker s <> notStarted
  /\ (wg (proc s) = O -> worker s = exited)
  /\ (stopper s = stopNotCalled -> cancelled (ctx (proc s)) = false)
  /\ (sawDone (worker s) = true -> cancelled (ctx (proc s)) = true)
  /\ (stopper s = stopWaited \/ stopper s = stopReturned -> worker s = exited)
  /\ (responseClosed (proc s) = true -> stopper s = stopReturned).

(** The worker has left only an empty [requestChan] behind. *)
Definition drained (s : system) : Prop :=
  worker s = exited -> requestChan (proc s) = [].

End Processor.

Arguments NewAsyncRequstProcessor {T R}.
Arguments processWith {T R W}.
Arguments process {T R W}.
Arguments retried {T R W}.
Arguments buildResponse {T R W}.
Arguments initial {T R W}.
Arguments setRequestChan {T R}.
Arguments setResponseChan {T R}.
Arguments setResponseClosed {T R}.
Arguments setWg {T R}.
Arguments setCtx {T R}.
Arguments setProc {T R W}.
Arguments setWorker {T R W}.
Arguments setStopper {T R W}.
Arguments setWorld {T R W}.
Arguments noteAccepted {T R W}.
Arguments noteHandled {T R W}.
Arguments noteDelivered {T R W}.
Arguments backTo {T R}.
Arguments stepStart {T R W}.
Arguments stepSubmit {T R W}.
Arguments stepStopCancel {T R W}.
Arguments stepStopWait {T R W}.
Arguments stepStopClose {T R W}.
Arguments stepReceive {T R W}.
Arguments stepWorkerSelect {T R W}.
Arguments stepWorkerBuild {T R W}.
Arguments step {T R W}.
Arguments run {T R W}.
Arguments isSubmit {T}.
Arguments pushed {T R W}.
Arguments processed {T R W}.
Arguments inflight {T R}.
Arguments sawDone {T R}.
Arguments consistent {T R W}.
Arguments drained {T R W}.
Arguments notStarted {T R}.
Arguments atLoopSelect {T R}.
Arguments atDrainSelect {T R}.
Arguments inProcessRequest {T R}.
Arguments atSendSelect {T R}.
Arguments exited {T R}.
Arguments panicked {T R}.
Arguments Start {T}.
Arguments Submit {T}.
Arguments StopCancel {T}.
Arguments StopWait {T}.
Arguments StopClose {T}.
Arguments Receive {T}.
Arguments WorkerSelect {T}.
Arguments WorkerBuild {T}.
Arguments ID {T}.
Arguments Data {T}.
Arguments CreatedAt {T}.
Arguments RequestID {R}.
Arguments ResponseData {R}.
Arguments ResponseError {R}.
Arguments ResponseDuration {R}.
Arguments requestChan {T R}.
Arguments responseChan {T R}.
Arguments responseClosed {T R}.
Arguments bufferSize {T R}.
Arguments wg {T R}.
Arguments ctx {T R}.
Arguments retryConfig {T R}.
Arguments proc {T R W}.
Arguments worker {T R W}.
Arguments stopper {T R W}.
Arguments world {T R W}.
Arguments accepted {T R W}.
Arguments handled {T R W}.
Arguments delivered {T R W}.

(** Neither channel holds more than its capacity. *)
Definition bounded {T R W : Type} (s : system T R W) : Prop :=
  (List.length (requestChan (proc s)) <= bufferSize (proc s))%nat
  /\ (List.length (responseChan (proc s)) <= bufferSize (proc s))%nat.


(** As long as [Stop] has not been called no response has been discarded. *)
Definition allPushed {T R W : Type} (s : system T R W) : Prop :=
  stopper s = stopNotCalled -> Forall (fun h => snd h = true) (handled s).

End async.

(** ** Concrete inputs, after the repository's tests *)

Module scenarios.

Import retry.

(** A rendering of durations to run the models with: nanoseconds in
    decimal.  (Any function does: the models take it as an argument.) *)
Definition nanoseconds (d : Duration) : string :=
  (NilZero.string_of_int (Z.to_int d) ++ "ns")%string.

Definition Millisecond : Duration := 1000000.

(** The policy of the retry tests. *)
Definition testConfig : RetryConfig :=
  {| MaxDuration := 5 * Second;
     InitialInterval := 100 * Millisecond;
     MaxInterval := 500 * Millisecond;
     IntervalIncrement := 100 * Millisecond |}.

(** Operations on a world that counts the invocations. *)
Definition alwaysFails (_ : unit) (calls : nat) : option error * nat :=
  (Some (errorString "connection refused"), S calls).


Definition succeedsThirdTime (_ : unit) (calls : nat) : option error * nat :=
  if Nat.ltb calls 2
  then (Some (errorString "connection refused"), S calls)
  else (None, S calls).

(** The breaker of the circuit-breaker tests (threshold 3, reset timeout
    100ms) with the state-change log of [testStateChangeCallback]; the
    world also counts the invocations of the operation. *)
Abbreviation breakerWorld := (list (circuitbreaker.State * circuitbreaker.State) * nat)%type.

Definition testBreaker : circuitbreaker.circuitBreaker breakerWorld :=
  circuitbreaker.New
    {| circuitbreaker.FailureThreshold := 3;
       circuitbreaker.ResetTimeout := 100 * Millisecond;
       circuitbreaker.OnStateChange := Some circuitbreaker.recordChange;
       circuitbreaker.OnError := None |}.

Definition testError : error := errorString "test error".

Definition failingCall (clock : Time) : circuitbreaker.call breakerWorld :=
  {| circuitbreaker.admitClock := clock;
     circuitbreaker.resultClock := clock;
     circuitbreaker.operation :=
       circuitbreaker.besideLog (fun calls : nat => (Some testError, S calls)) |}.

Definition successfulCall (clock : Time) : circuitbreaker.call breakerWorld :=
  {| circuitbreaker.admitClock := clock;
     circuitbreaker.resultClock := clock;
     circuitbreaker.operation :=
       circuitbreaker.besideLog (fun calls : nat => (None, S calls)) |}.

(** Some instant, and a fresh world. *)
Definition noon : Time := 1000000 * Second.

Definition freshWorld : breakerWorld := ([], 0%nat).



(** The test breaker once three failures have opened it. *)
Definition openedBreaker : circuitbreaker.circuitBreaker breakerWorld :=
  snd (fst (circuitbreaker.ExecuteAll testBreaker
              [failingCall noon; failingCall (noon + 1 * Millisecond);
               failingCall (noon + 2 * Millisecond)] freshWorld)).

(** The tracker of the nonce-tracker tests (interval and timeout of one
    minute), what a fetch delivers, and the tracker after a first refetch
    completed at [noon]. *)
Definition testTracker : tx.NonceTracker := tx.NewNonceTracker (60 * Second) (60 * Second).

Definition fetched (nonce : Z) : tx.refetched :=
  tx.received {| tx.Nonce := nonce; tx.Accnum := 1 |} None.

Definition refetchedTracker : tx.NonceTracker :=
  fst (tx.ForceRefetch nanoseconds testTracker noon (fetched 10) noon).

(** A processor with input capacity 2 and the retry tests' policy, a
    processing function that doubles the payload and counts its
    invocations, two requests, and two ways the goroutines can interleave
    once both requests are accepted and [Stop] has cancelled the context:
    the [select] of [processRequest] sends both responses, or it takes the
    [ctx.Done()] branch for the first one. *)
Definition testProcessor : async.AsyncRequestProcessor nat nat :=
  async.NewAsyncRequstProcessor 2 (Some testConfig).

Definition double (_ : async.Context) (req : async.Request nat) (calls : nat)
  : (nat * option error) * nat :=
  ((2 * async.Data req, None)%nat, S calls).

Definition request1 : async.Request nat :=
  {| async.ID := "1"; async.Data := 1%nat; async.CreatedAt := noon |}.

Definition request2 : async.Request nat :=
  {| async.ID := "2"; async.Data := 2%nat; async.CreatedAt := noon |}.

Definition submitBoth : list (async.action nat) :=
  [async.Submit request1 async.onChannel; async.Submit request2 async.onChannel].

Definition drainAndSendBoth : list (async.action nat) :=
  [async.WorkerSelect async.onChannel;
   async.WorkerBuild [] noon (noon + 1 * Millisecond);
   async.WorkerSelect async.onChannel;
   async.WorkerSelect async.onDone;
   async.WorkerSelect async.onChannel;
   async.WorkerBuild [] (noon + 1 * Millisecond) (noon + 2 * Millisecond);
   async.WorkerSelect async.onChannel;
   async.WorkerSelect async.onDefault;
   async.StopWait;
   async.StopClose].

Definition drainAndDiscardFirst : list (async.action nat) :=
  [async.WorkerSelect async.onChannel;
   async.WorkerBuild [] noon (noon + 1 * Millisecond);
   async.WorkerSelect async.onDone;
   async.WorkerSelect async.onDone;
   async.WorkerSelect async.onChannel;
   async.WorkerBuild [] (noon + 1 * Millisecond) (noon + 2 * Millisecond);
   async.WorkerSelect async.onChannel;
   async.WorkerSelect async.onDefault;
   async.StopWait;
   async.StopClose].

(** The worker takes the first request, processes it and sends the
    response, before any [Stop]. *)
Definition processFirst : list (async.action nat) :=
  [async.WorkerSelect async.onChannel;
   async.WorkerBuild [] noon (noon + 1 * Millisecond);
   async.WorkerSelect async.onChannel].

End scenarios.

(** * Properties *)

(** ** Integers, clocks and strings *)

Section GoFacts.

Lemma wrap64_small (z : Z) : minInt64 <= z <= maxInt64 -> wrap64 z = z.
Proof.
  unfold wrap64, minInt64, maxInt64. intros Hz.
  rewrite Z.mod_small by lia. lia.
Qed.

Lemma uwrap64_small (z : Z) : 0 <= z < 2 ^ 64 -> uwrap64 z = z.
Proof. unfold uwrap64. intros Hz. now rewrite Z.mod_small. Qed.

Lemma uwrap64_succ (z : Z) : uwrap64 (uwrap64 z + 1) = uwrap64 (z + 1).
Proof.
  unfold uwrap64. rewrite Z.add_mod_idemp_l by lia. reflexivity.
Qed.

Lemma Sub_le (t u : Time) (d : Duration) : 0 <= d -> t - u <= d -> Sub t u <= d.
Proof.
  unfold Sub, minInt64, maxInt64. intros Hd Hle.
  destruct (t - u <? - 2 ^ 63) eqn:E1; [lia|].
  destruct (2 ^ 63 - 1 <? t - u) eqn:E2; lia.
Qed.

Lemma Sub_pos (t u : Time) : 0 < Sub t u -> u < t.
Proof.
  unfold Sub, minInt64, maxInt64.
  destruct (t - u <? - 2 ^ 63) eqn:E1; [lia|].
  destruct (2 ^ 63 - 1 <? t - u) eqn:E2; lia.
Qed.

Lemma ToLower_app (a b : string) :
  ToLower (a ++ b) = (ToLower a ++ ToLower b)%string.
Proof. induction a as [|c a IH]; simpl; [reflexivity | now rewrite IH]. Qed.

Lemma ToLower_split (s x y : string) :
  ToLower s = (x ++ y)%string ->
  exists a b, s = (a ++ b)%string /\ ToLower a = x /\ ToLower b = y.
Proof.
  revert s. induction x as [|c x IH]; intros s H.
  - exists EmptyString, s. auto.
  - destruct s as [|d s]; simpl in H; [discriminate|].
    injection H as Hc Hs. destruct (IH _ Hs) as (a & b & -> & Ha & Hb).
    exists (String d a), b. simpl. now rewrite Hc, Ha.
Qed.

Lemma HasPrefix_spec (s p : string) :
  HasPrefix s p = true <-> exists post, s = (p ++ post)%string.
Proof.
  revert s. induction p as [|a p IH]; intros s; simpl.
  - split; [intros _; now exists s | reflexivity].
  - destruct s as [|b s].
    + split; [discriminate | intros [post H]; discriminate].
    + rewrite andb_true_iff, Ascii.eqb_eq, IH. split.
      * intros [-> [post ->]]. now exists post.
      * intros [post H]. injection H as -> ->. split; [reflexivity | now exists post].
Qed.

Lemma Contains_spec (s substr : string) :
  Contains s substr = true <->
  exists pre post, s = (pre ++ substr ++ post)%string.
Proof.
  induction s as [|c s IH]; simpl.
  - destruct (HasPrefix "" substr) eqn:E.
    + split; [intros _ | reflexivity].
      apply HasPrefix_spec in E. destruct E as [post E]. now exists EmptyString, post.
    + split; [discriminate|]. intros (pre & post & H).
      destruct pre; simpl in H; [|discriminate].
      assert (HasPrefix "" substr = true) by (apply HasPrefix_spec; now exists post).
      congruence.
  - destruct (HasPrefix (String c s) substr) eqn:E.
    + split; [intros _ | reflexivity].
      apply HasPrefix_spec in E. destruct E as [post E]. now exists EmptyString, post.
    + rewrite IH. split.
      * intros (pre & post & ->). now exists (String c pre), post.
      * intros (pre & post & H). destruct pre as [|d pre]; simpl in H.
        -- assert (HasPrefix (String c s) substr = true)
             by (apply HasPrefix_spec; now exists post).
           congruence.
        -- injection H as _ ->. now exists pre, post.
Qed.

(** The test [isNonRetriable] makes on one pattern is the spec's
    case-insensitive substring test. *)
Lemma Contains_ToLower (s pattern : string) :
  Contains (ToLower s) (ToLower pattern) = true <-> retry.occursIgnoringCase pattern s.
Proof.
  rewrite Contains_spec. unfold retry.occursIgnoringCase. split.
  - intros (pre & post & H).
    apply ToLower_split in H. destruct H as (a & b & -> & Ha & Hb).
    apply ToLower_split in Hb. destruct Hb as (m & c & -> & Hm & Hc).
    now exists a, m, c.
  - intros (pre & mid & post & -> & Hm).
    exists (ToLower pre), (ToLower post).
    now rewrite !ToLower_app, Hm.
Qed.

End GoFacts.

(** ** retry: the retry loop *)

Section RetryFacts.

Import retry.

Local Arguments isNonRetriable : simpl never.

Variable DurationString : Duration -> string.
Context {Ctx W : Type}.
Variable ctx : Ctx.
Variable cfg : RetryConfig.
Variable operation : Ctx -> W -> option error * W.

(** [isNonRetriable] decides exactly the spec's test: some pattern of the
    list is a case-insensitive substring of the error's message. *)
Lemma isNonRetriable_spec (e : error) (patterns : list string) :
  isNonRetriable (Some e) patterns = true <->
  exists pattern, In pattern patterns /\ occursIgnoringCase pattern (Error e).
Proof.
  unfold isNonRetriable. destruct patterns as [|p ps].
  - split; [discriminate | intros (q & [] & _)].
  - rewrite existsb_exists. split.
    + intros (q & Hin & Hq). exists q. split; [exact Hin | now apply Contains_ToLower].
    + intros (q & Hin & Hq). exists q. split; [exact Hin | now apply Contains_ToLower].
Qed.

Lemma isNonRetriable_no_patterns (err : option error) : isNonRetriable err [] = false.
Proof. destruct err; reflexivity. Qed.

(** The loop, one attempt at a time. *)
Lemma retryLoop_success patterns sels interval w w' :
  operation ctx w = (None, w') ->
  retryLoop DurationString ctx cfg operation patterns sels interval w = (Returned None, w').
Proof. intros H. destruct sels; simpl; now rewrite H. Qed.

Lemma retryLoop_nonRetriable patterns sels interval w err w' :
  operation ctx w = (Some err, w') ->
  isNonRetriable (Some err) patterns = true ->
  retryLoop DurationString ctx cfg operation patterns sels interval w
  = (Returned (Some err), w').
Proof. intros H Hn. destruct sels; simpl; now rewrite H, Hn. Qed.

Lemma retryLoop_again patterns sels interval w err w' :
  operation ctx w = (Some err, w') ->
  isNonRetriable (Some err) patterns = false ->
  retryLoop DurationString ctx cfg operation patterns (afterInterval :: sels) interval w
  = retryLoop DurationString ctx cfg operation patterns sels
      (Z.min (wrap64 (interval + IntervalIncrement cfg)) (MaxInterval cfg)) w'.
Proof. intros H Hn. simpl. now rewrite H, Hn. Qed.

(** After [k] failed, retriable attempts, each followed by the interval
    elapsing first, the loop is at its attempt number [k+1]. *)
Lemma retryLoop_skip patterns k :
  forall sels interval w,
    (forall j, (j < k)%nat ->
       exists e, fst (operation ctx (afterCalls ctx operation j w)) = Some e
                 /\ isNonRetriable (Some e) patterns = false) ->
    exists interval',
      retryLoop DurationString ctx cfg operation patterns
        (repeat afterInterval k ++ sels) interval w
      = retryLoop DurationString ctx cfg operation patterns sels interval'
          (afterCalls ctx operation k w).
Proof.
  induction k as [|k IH]; intros sels interval w Hfail.
  - exists interval. reflexivity.
  - destruct (Hfail 0%nat) as (e & He & Hn); [lia|]. simpl in He.
    destruct (operation ctx w) as [r w1] eqn:Hop. simpl in He. subst r.
    destruct (IH sels (Z.min (wrap64 (interval + IntervalIncrement cfg)) (MaxInterval cfg)) w1)
      as [i' Hi'].
    + intros j Hj. specialize (Hfail (S j)). simpl in Hfail. rewrite Hop in Hfail.
      apply Hfail. lia.
    + exists i'. change (repeat afterInterval (S k) ++ sels)
        with (afterInterval :: (repeat afterInterval k ++ sels)).
      rewrite (retryLoop_again _ _ _ _ _ _ Hop Hn). rewrite Hi'.
      simpl. now rewrite Hop.
Qed.

Lemma afterCalls_succ k : forall w,
  afterCalls ctx operation (S k) w
  = snd (operation ctx (afterCalls ctx operation k w)).
Proof.
  induction k as [|k IH]; intros w; [reflexivity|].
  change (afterCalls ctx operation (S (S k)) w)
    with (afterCalls ctx operation (S k) (snd (operation ctx w))).
  now rewrite IH.
Qed.

(** The counting closure is invoked at least once. *)
Lemma retryLoop_counts patterns sels :
  forall interval w n,
    (n < snd (snd (retryLoop DurationString ctx cfg (counting operation) patterns
                     sels interval (w, n))))%nat.
Proof.
  induction sels as [|sel sels IH]; intros interval w n; simpl;
    destruct (operation ctx w) as [[e|] w1]; simpl.
  - destruct (isNonRetriable (Some e) patterns); simpl; lia.
  - lia.
  - destruct (isNonRetriable (Some e) patterns); simpl; [lia|].
    destruct sel; simpl; try lia.
    specialize (IH (Z.min (wrap64 (interval + IntervalIncrement cfg)) (MaxInterval cfg))
                  w1 (S n)). lia.
  - lia.
Qed.



(** C10: the operation is invoked at least once whatever the policy and
    whatever the first [select] would find (deadline passed, scope
    cancelled); an attempt that returns no error makes the loop return
    [nil] whatever the [select] would find then, be it the first attempt
    or one that follows [k] failed ones: the [select] is reached only
    after a failed attempt. *)
Theorem RetryWithBackoff_attempts_first (patterns : list string) :
  (forall (sels : list selected) (w : W) (n : nat),
      (n < snd (snd (RetryWithBackoff DurationString ctx cfg (counting operation)
                       patterns sels (w, n))))%nat)
  /\ (forall (sels : list selected) (w w' : W),
         operation ctx w = (None, w') ->
         RetryWithBackoff DurationString ctx cfg operation patterns sels w
         = (Returned None, w'))
  /\ (forall (k : nat) (sels : list selected) (w : W),
         (forall j, (j < k)%nat ->
            exists e, fst (operation ctx (afterCalls ctx operation j w)) = Some e
                      /\ isNonRetriable (Some e) patterns = false) ->
         fst (operation ctx (afterCalls ctx operation k w)) = None ->
         RetryWithBackoff DurationString ctx cfg operation patterns
           (repeat afterInterval k ++ sels) w
         = (Returned None, afterCalls ctx operation (S k) w)).
Proof.
  split; [|split].
  - intros sels w n. apply retryLoop_counts.
  - intros sels w w' Hop. now apply retryLoop_success.
  - intros k sels w Hpre Hk. unfold RetryWithBackoff.
    destruct (retryLoop_skip patterns k sels (InitialInterval cfg) w Hpre) as [i' ->].
    rewrite afterCalls_succ.
    destruct (operation ctx (afterCalls ctx operation k w)) as [r wk] eqn:Hop.
    simpl in Hk. subst r. now apply retryLoop_success.
Qed.

End RetryFacts.

Section RetryWitnesses.

Import retry scenarios.



Lemma RetryWithBackoff_attempts_first_witness :
  RetryWithBackoff nanoseconds tt testConfig succeedsThirdTime []
    (repeat afterInterval 2 ++ [timerC]) 0%nat
  = (Returned None, 3%nat).
Proof.
  apply (proj2 (proj2 (RetryWithBackoff_attempts_first nanoseconds tt testConfig
                         succeedsThirdTime [])) 2%nat [timerC] 0%nat).
  - intros j Hj. destruct j as [|[|j]]; [| |lia];
      exists (errorString "connection refused"); split; reflexivity.
  - reflexivity.
Defined.

End RetryWitnesses.

(** ** circuitbreaker: the breaker's state machine *)

Section BreakerFacts.

Import circuitbreaker.

Context {W : Type}.

Implicit Types (cb : circuitBreaker W) (w : W).

Lemma Execute_Open_rejects cb t1 t2 op w :
  currentState cb = StateOpen ->
  Since t1 (lastFailureTime cb) <= resetTimeout cb ->
  Execute cb t1 t2 op w = (Some errCircuitOpen, cb, w).
Proof.
  intros Hst Hle. unfold Execute, allowRequest. rewrite Hst.
  destruct (resetTimeout cb <? Since t1 (lastFailureTime cb)) eqn:E; [lia | reflexivity].
Qed.

Lemma allowRequest_Open_probe cb t w :
  currentState cb = StateOpen ->
  resetTimeout cb < Since t (lastFailureTime cb) ->
  exists cb1,
    allowRequest cb t w = (true, cb1, onStateChange cb StateOpen StateHalfOpen w)
    /\ currentState cb1 = StateHalfOpen
    /\ failureCount cb1 = 0 /\ successCount cb1 = 0
    /\ lastFailureTime cb1 = lastFailureTime cb
    /\ sameSetup cb cb1.
Proof.
  intros Hst Hlt. unfold allowRequest, toHalfOpen, toState. rewrite Hst.
  destruct (resetTimeout cb <? Since t (lastFailureTime cb)) eqn:E; [|lia].
  simpl. eexists. split; [reflexivity|]. simpl. unfold sameSetup. simpl. tauto.
Qed.

Lemma allowRequest_not_Open cb t w :
  currentState cb <> StateOpen -> allowRequest cb t w = (true, cb, w).
Proof.
  intros Hst. unfold allowRequest. destruct (currentState cb); [reflexivity .. | congruence].
Qed.

Lemma onFailure_HalfOpen cb t e w :
  currentState cb = StateHalfOpen ->
  exists cb',
    onFailure cb t e w = (cb', onError cb e (onStateChange cb StateHalfOpen StateOpen w))
    /\ currentState cb' = StateOpen
    /\ failureCount cb' = 0 /\ successCount cb' = 0
    /\ lastFailureTime cb' = t
    /\ sameSetup cb cb'.
Proof.
  intros Hst. unfold onFailure, toState. simpl. rewrite Hst. simpl.
  eexists. split; [reflexivity|]. simpl. unfold sameSetup. simpl. tauto.
Qed.

Lemma onFailure_Closed_below cb t e w :
  currentState cb = StateClosed ->
  wrap64 (failureCount cb + 1) < failureThreshold cb ->
  exists cb',
    onFailure cb t e w = (cb', onError cb e w)
    /\ currentState cb' = StateClosed
    /\ failureCount cb' = wrap64 (failureCount cb + 1)
    /\ successCount cb' = successCount cb
    /\ lastFailureTime cb' = t
    /\ sameSetup cb cb'.
Proof.
  intros Hst Hlt. unfold onFailure, toState. simpl. rewrite Hst. simpl.
  destruct (failureThreshold cb <=? wrap64 (failureCount cb + 1)) eqn:E; [lia|].
  eexists. split; [reflexivity|]. simpl. unfold sameSetup. simpl. tauto.
Qed.

Lemma onFailure_Closed_reached cb t e w :
  currentState cb = StateClosed ->
  failureThreshold cb <= wrap64 (failureCount cb + 1) ->
  exists cb',
    onFailure cb t e w = (cb', onError cb e (onStateChange cb StateClosed StateOpen w))
    /\ currentState cb' = StateOpen
    /\ failureCount cb' = 0 /\ successCount cb' = 0
    /\ lastFailureTime cb' = t
    /\ sameSetup cb cb'.
Proof.
  intros Hst Hle. unfold onFailure, toState. simpl. rewrite Hst. simpl.
  destruct (failureThreshold cb <=? wrap64 (failureCount cb + 1)) eqn:E; [|lia].
  simpl. eexists. split; [reflexivity|]. simpl. unfold sameSetup. simpl. tauto.
Qed.

Lemma onSuccess_HalfOpen_first cb w :
  currentState cb = StateHalfOpen ->
  wrap64 (successCount cb + 1) < 2 ->
  exists cb',
    onSuccess cb w = (cb', w)
    /\ currentState cb' = StateHalfOpen
    /\ failureCount cb' = failureCount cb
    /\ successCount cb' = wrap64 (successCount cb + 1)
    /\ lastFailureTime cb' = lastFailureTime cb
    /\ sameSetup cb cb'.
Proof.
  intros Hst Hlt. unfold onSuccess, toState. rewrite Hst. simpl.
  destruct (2 <=? wrap64 (successCount cb + 1)) eqn:E; [lia|].
  eexists. split; [reflexivity|]. simpl. unfold sameSetup. simpl. tauto.
Qed.

Lemma onSuccess_HalfOpen_second cb w :
  currentState cb = StateHalfOpen ->
  2 <= wrap64 (successCount cb + 1) ->
  exists cb',
    onSuccess cb w = (cb', onStateChange cb StateHalfOpen StateClosed w)
    /\ currentState cb' = StateClosed
    /\ failureCount cb' = 0 /\ successCount cb' = 0
    /\ lastFailureTime cb' = lastFailureTime cb
    /\ sameSetup cb cb'.
Proof.
  intros Hst Hle. unfold onSuccess, toState. rewrite Hst. simpl.
  destruct (2 <=? wrap64 (successCount cb + 1)) eqn:E; [|lia].
  simpl.
  eexists. split; [reflexivity|]. simpl. unfold sameSetup. simpl. tauto.
Qed.

Lemma onSuccess_Closed cb w :
  currentState cb = StateClosed ->
  exists cb',
    onSuccess cb w = (cb', w)
    /\ currentState cb' = StateClosed
    /\ failureCount cb' = 0
    /\ successCount cb' = successCount cb
    /\ lastFailureTime cb' = lastFailureTime cb
    /\ sameSetup cb cb'.
Proof.
  intros Hst. unfold onSuccess. rewrite Hst.
  eexists. split; [reflexivity|]. simpl. unfold sameSetup. simpl. tauto.
Qed.

(** [Execute] on a breaker that is not open: the operation is invoked and
    its result handled. *)
Lemma Execute_admitted cb t1 t2 op w :
  currentState cb <> StateOpen ->
  Execute cb t1 t2 op w
  = (fst (op w),
     fst (handleResult cb t2 (fst (op w)) (snd (op w))),
     snd (handleResult cb t2 (fst (op w)) (snd (op w)))).
Proof.
  intros Hst. unfold Execute. rewrite (allowRequest_not_Open _ _ _ Hst). simpl.
  destruct (op w) as [err w2]. simpl.
  now destruct (handleResult cb t2 err w2).
Qed.

Lemma Execute_HalfOpen_failure cb t1 t2 op w e :
  currentState cb = StateHalfOpen ->
  fst (op w) = Some e ->
  exists cb',
    Execute cb t1 t2 op w
    = (Some e, cb', onError cb e (onStateChange cb StateHalfOpen StateOpen (snd (op w))))
    /\ currentState cb' = StateOpen
    /\ failureCount cb' = 0 /\ successCount cb' = 0
    /\ lastFailureTime cb' = t2
    /\ sameSetup cb cb'.
Proof.
  intros Hst He. rewrite Execute_admitted by congruence. rewrite He. simpl.
  destruct (onFailure_HalfOpen cb t2 e (snd (op w)) Hst) as (cb' & -> & H).
  exists cb'. simpl. tauto.
Qed.

Lemma Execute_HalfOpen_first_success cb t1 t2 op w :
  currentState cb = StateHalfOpen ->
  fst (op w) = None ->
  wrap64 (successCount cb + 1) < 2 ->
  exists cb',
    Execute cb t1 t2 op w = (None, cb', snd (op w))
    /\ currentState cb' = StateHalfOpen
    /\ successCount cb' = wrap64 (successCount cb + 1)
    /\ lastFailureTime cb' = lastFailureTime cb
    /\ sameSetup cb cb'.
Proof.
  intros Hst He Hlt. rewrite Execute_admitted by congruence. rewrite He. simpl.
  destruct (onSuccess_HalfOpen_first cb (snd (op w)) Hst Hlt) as (cb' & -> & H).
  exists cb'. simpl. tauto.
Qed.

Lemma Execute_HalfOpen_second_success cb t1 t2 op w :
  currentState cb = StateHalfOpen ->
  fst (op w) = None ->
  2 <= wrap64 (successCount cb + 1) ->
  exists cb',
    Execute cb t1 t2 op w
    = (None, cb', onStateChange cb StateHalfOpen StateClosed (snd (op w)))
    /\ currentState cb' = StateClosed
    /\ failureCount cb' = 0 /\ successCount cb' = 0
    /\ lastFailureTime cb' = lastFailureTime cb
    /\ sameSetup cb cb'.
Proof.
  intros Hst He Hle. rewrite Execute_admitted by congruence. rewrite He. simpl.
  destruct (onSuccess_HalfOpen_second cb (snd (op w)) Hst Hle) as (cb' & -> & H).
  exists cb'. simpl. tauto.
Qed.

Lemma Execute_Closed_success cb t1 t2 op w :
  currentState cb = StateClosed ->
  fst (op w) = None ->
  exists cb',
    Execute cb t1 t2 op w = (None, cb', snd (op w))
    /\ currentState cb' = StateClosed
    /\ failureCount cb' = 0
    /\ successCount cb' = successCount cb
    /\ lastFailureTime cb' = lastFailureTime cb
    /\ sameSetup cb cb'.
Proof.
  intros Hst He. rewrite Execute_admitted by congruence. rewrite He. simpl.
  destruct (onSuccess_Closed cb (snd (op w)) Hst) as (cb' & -> & H).
  exists cb'. simpl. tauto.
Qed.

(** Two successful calls in a row on a half-open breaker close it. *)
Lemma HalfOpen_two_successes cb c1 c2 w :
  currentState cb = StateHalfOpen ->
  0 <= successCount cb <= 1 ->
  succeeds (operation c1) -> succeeds (operation c2) ->
  exists cb' w',
    ExecuteAll cb [c1; c2] w = ([None; None], cb', w')
    /\ currentState cb' = StateClosed
    /\ failureCount cb' = 0 /\ successCount cb' = 0.
Proof.
  intros Hst Hsc H1 H2.
  assert (Hcases : successCount cb = 0 \/ successCount cb = 1) by lia.
  destruct Hcases as [Hz | Ho].
  - destruct (Execute_HalfOpen_first_success cb (admitClock c1) (resultClock c1)
                (operation c1) w Hst (H1 w)) as (cb1 & E1 & Hst1 & Hsc1 & _).
    { rewrite Hz. reflexivity. }
    rewrite Hz in Hsc1.
    destruct (Execute_HalfOpen_second_success cb1 (admitClock c2) (resultClock c2)
                (operation c2) (snd (operation c1 w)) Hst1 (H2 _)) as (cb2 & E2 & Hst2 & Hf & Hs & _).
    { rewrite Hsc1. vm_compute. discriminate. }
    exists cb2. eexists. simpl. rewrite E1, E2. auto.
  - destruct (Execute_HalfOpen_second_success cb (admitClock c1) (resultClock c1)
                (operation c1) w Hst (H1 w)) as (cb1 & E1 & Hst1 & Hf1 & Hs1 & _).
    { rewrite Ho. vm_compute. discriminate. }
    destruct (Execute_Closed_success cb1 (admitClock c2) (resultClock c2) (operation c2)
                (onStateChange cb StateHalfOpen StateClosed (snd (operation c1 w)))
                Hst1 (H2 _)) as (cb2 & E2 & Hst2 & Hf & Hs & _).
    exists cb2. eexists. simpl. rewrite E1, E2. rewrite Hs, Hs1. auto.
Qed.

(** Every breaker a program can hold has its counters in range. *)
Lemma Execute_countersInRange cb t1 t2 op w :
  countersInRange cb -> countersInRange (snd (fst (Execute cb t1 t2 op w))).
Proof.
  assert (Hhalf : forall (h : circuitBreaker W) v,
             currentState h = StateHalfOpen -> countersInRange h ->
             countersInRange (snd (fst (Execute h t1 t2 op v)))).
  { intros h v Hst [Hthr Hc]. rewrite Hst in Hc.
    destruct (fst (op v)) as [e|] eqn:He.
    - destruct (Execute_HalfOpen_failure h t1 t2 op v e Hst He)
        as (h' & -> & Hst' & _ & _ & _ & (Hth & _)).
      unfold countersInRange. simpl. rewrite Hth, Hst'. now split.
    - destruct (Z.eq_dec (successCount h) 0) as [Hz | Hnz].
      + destruct (Execute_HalfOpen_first_success h t1 t2 op v Hst He)
          as (h' & -> & Hst' & Hsc' & _ & (Hth & _)).
        { rewrite Hz. reflexivity. }
        unfold countersInRange. simpl. rewrite Hth, Hst', Hsc', Hz.
        split; [exact Hthr | vm_compute; split; discriminate].
      + destruct (Execute_HalfOpen_second_success h t1 t2 op v Hst He)
          as (h' & -> & Hst' & Hf' & _ & _ & (Hth & _)).
        { replace (successCount h) with 1 by lia. vm_compute. discriminate. }
        unfold countersInRange. simpl. rewrite Hth, Hst', Hf'. split; [exact Hthr | lia]. }
  intros [Hthr Hc]. destruct (currentState cb) eqn:Hst.
  - destruct (fst (op w)) as [e|] eqn:He.
    + rewrite Execute_admitted by congruence. rewrite He. simpl.
      assert (Hwrap : wrap64 (failureCount cb + 1) = failureCount cb + 1).
      { apply wrap64_small. unfold minInt64, maxInt64 in *. lia. }
      destruct (Z_lt_le_dec (failureCount cb + 1) (failureThreshold cb)) as [Hlt | Hle].
      * destruct (onFailure_Closed_below cb t2 e (snd (op w)) Hst)
          as (cb' & -> & Hst' & Hf' & _ & _ & (Hth & _)); [lia|].
        unfold countersInRange. simpl. rewrite Hth, Hst', Hf', Hwrap. split; [exact Hthr | lia].
      * destruct (onFailure_Closed_reached cb t2 e (snd (op w)) Hst)
          as (cb' & -> & Hst' & _ & _ & _ & (Hth & _)); [lia|].
        unfold countersInRange. simpl. rewrite Hth, Hst'. now split.
    + destruct (Execute_Closed_success cb t1 t2 op w Hst He)
        as (cb' & -> & Hst' & Hf' & _ & _ & (Hth & _)).
      unfold countersInRange. simpl. rewrite Hth, Hst', Hf'. split; [exact Hthr | lia].
  - apply Hhalf; [exact Hst|]. split; [exact Hthr | now rewrite Hst].
  - destruct (Z_lt_le_dec (resetTimeout cb) (Since t1 (lastFailureTime cb))) as [Hlt | Hle].
    + destruct (allowRequest_Open_probe cb t1 w Hst Hlt)
        as (cb1 & Hallow & Hst1 & _ & Hs1 & _ & (Hth1 & _)).
      assert (Hex : Execute cb t1 t2 op w
                    = Execute cb1 t1 t2 op (onStateChange cb StateOpen StateHalfOpen w)).
      { unfold Execute at 1. rewrite Hallow. simpl.
        rewrite Execute_admitted by congruence.
        destruct (op (onStateChange cb StateOpen StateHalfOpen w)) as [err w2]. simpl.
        now destruct (handleResult cb1 t2 err w2). }
      rewrite Hex. apply Hhalf; [exact Hst1|].
      split; [now rewrite Hth1 | rewrite Hst1, Hs1; lia].
    + rewrite (Execute_Open_rejects cb t1 t2 op w Hst Hle). simpl.
      split; [exact Hthr | now rewrite Hst].
Qed.

Lemma reachable_countersInRange cb : reachable cb -> countersInRange cb.
Proof.
  induction 1 as [options Hmax | cb t1 t2 op w _ IH].
  - unfold countersInRange, New. simpl.
    destruct (FailureThreshold options <=? 0) eqn:E; unfold maxInt64 in *; simpl; lia.
  - now apply Execute_countersInRange.
Qed.
(** C4: on an open breaker, when more than [resetTimeout] has passed since
    the last failure, the next [Execute] is admitted (it returns what the
    operation returns) and the breaker is half-open while the operation
    runs, and after it if it succeeded; a half-open breaker is opened again
    by one failed call, and closed, with both counters at zero, by two
    successful calls in a row (the admitted probe counts as one).  (The
    success counter of a half-open breaker is 0 or 1:
    [reachable_countersInRange].) *)
Theorem breaker_probes_and_recovers cb (now : Time) (w : W) :
  currentState cb = StateOpen ->
  resetTimeout cb < Since now (lastFailureTime cb) ->
  (exists cb1,
      allowRequest cb now w = (true, cb1, onStateChange cb StateOpen StateHalfOpen w)
      /\ GetState cb1 = StateHalfOpen
      /\ forall t2 op,
          fst (fst (Execute cb now t2 op w))
          = fst (op (onStateChange cb StateOpen StateHalfOpen w))
          /\ (fst (op (onStateChange cb StateOpen StateHalfOpen w)) = None ->
              GetState (snd (fst (Execute cb now t2 op w))) = StateHalfOpen)
          /\ (fst (op (onStateChange cb StateOpen StateHalfOpen w)) <> None ->
              GetState (snd (fst (Execute cb now t2 op w))) = StateOpen))
  /\ (forall (h : circuitBreaker W) t1 t2 op w0,
        currentState h = StateHalfOpen -> fails op ->
        fst (fst (Execute h t1 t2 op w0)) = fst (op w0)
        /\ GetState (snd (fst (Execute h t1 t2 op w0))) = StateOpen)
  /\ (forall (h : circuitBreaker W) c1 c2 w0,
        currentState h = StateHalfOpen -> 0 <= successCount h <= 1 ->
        succeeds (operation c1) -> succeeds (operation c2) ->
        fst (fst (ExecuteAll h [c1; c2] w0)) = [None; None]
        /\ GetState (snd (fst (ExecuteAll h [c1; c2] w0))) = StateClosed
        /\ failureCount (snd (fst (ExecuteAll h [c1; c2] w0))) = 0
        /\ successCount (snd (fst (ExecuteAll h [c1; c2] w0))) = 0)
  /\ (forall c1 c2,
        admitClock c1 = now ->
        succeeds (operation c1) -> succeeds (operation c2) ->
        fst (fst (ExecuteAll cb [c1; c2] w)) = [None; None]
        /\ GetState (snd (fst (ExecuteAll cb [c1; c2] w))) = StateClosed
        /\ failureCount (snd (fst (ExecuteAll cb [c1; c2] w))) = 0
        /\ successCount (snd (fst (ExecuteAll cb [c1; c2] w))) = 0).
Proof.
  intros Hst Hlt.
  destruct (allowRequest_Open_probe cb now w Hst Hlt)
    as (cb1 & Hallow & Hst1 & Hf1 & Hs1 & Hl1 & Hsame1).
  assert (Hexec : forall t2 op,
             Execute cb now t2 op w
             = Execute cb1 now t2 op (onStateChange cb StateOpen StateHalfOpen w)).
  { intros t2 op. unfold Execute at 1. rewrite Hallow. simpl.
    rewrite Execute_admitted by congruence.
    destruct (op (onStateChange cb StateOpen StateHalfOpen w)) as [err w2]. simpl.
    now destruct (handleResult cb1 t2 err w2). }
  split; [|split; [|split]].
  - exists cb1. split; [exact Hallow|]. split; [exact Hst1|].
    intros t2 op. rewrite Hexec.
    set (w1 := onStateChange cb StateOpen StateHalfOpen w).
    split; [|split].
    + rewrite Execute_admitted by congruence. reflexivity.
    + intros Hnone.
      destruct (Execute_HalfOpen_first_success cb1 now t2 op w1 Hst1 Hnone)
        as (cb2 & -> & Hst2 & _).
      { rewrite Hs1. reflexivity. }
      exact Hst2.
    + intros Hsome. destruct (fst (op w1)) as [e|] eqn:He; [|congruence].
      destruct (Execute_HalfOpen_failure cb1 now t2 op w1 e Hst1 He) as (cb2 & -> & Hst2 & _).
      exact Hst2.
  - intros h t1 t2 op w0 Hh Hfail.
    destruct (fst (op w0)) as [e|] eqn:He; [|now apply Hfail in He].
    destruct (Execute_HalfOpen_failure h t1 t2 op w0 e Hh He) as (h' & -> & Hst' & _).
    simpl. split; [reflexivity | exact Hst'].
  - intros h c1 c2 w0 Hh Hsc H1 H2.
    destruct (HalfOpen_two_successes h c1 c2 w0 Hh Hsc H1 H2)
      as (h' & w' & -> & Hst' & Hf' & Hs').
    simpl. auto.
  - intros c1 c2 Hclock H1 H2.
    assert (Hall : ExecuteAll cb [c1; c2] w
                   = ExecuteAll cb1 [c1; c2] (onStateChange cb StateOpen StateHalfOpen w)).
    { simpl. rewrite Hclock. now rewrite Hexec. }
    rewrite Hall.
    destruct (HalfOpen_two_successes cb1 c1 c2 (onStateChange cb StateOpen StateHalfOpen w)
                Hst1 ltac:(lia) H1 H2) as (h' & w' & -> & Hst' & Hf' & Hs').
    simpl. auto.
Qed.

End BreakerFacts.

Section BreakerLog.

Import circuitbreaker.

Context {U : Type}.

Local Abbreviation W := (list (State * State) * U)%type.

Implicit Types (cb : circuitBreaker W) (w : W) (c : call W).








(** Calls made no later than [resetTimeout] after the last failure are all
    rejected by an open breaker. *)
Lemma open_window_rejects {V : Type} (t0 : Time) :
  forall (calls : list (call V)) (b : circuitBreaker V) (v : V),
    currentState b = StateOpen ->
    t0 <= lastFailureTime b ->
    Forall (within t0 (resetTimeout b)) calls ->
    ExecuteAll b calls v = (map (fun _ => Some errCircuitOpen) calls, b, v).
Proof.
  induction calls as [|c calls IH]; intros b v Hst Hlast Hwin; [reflexivity|].
  inversion Hwin as [|? ? [[Ha1 Ha2] _] Hwin']; subst.
  simpl. rewrite Execute_Open_rejects; [now rewrite IH | exact Hst |].
  unfold Since. apply Sub_le; lia.
Qed.





End BreakerLog.

Section BreakerWitnesses.

Import circuitbreaker scenarios.

Lemma breaker_probes_and_recovers_witness :
  GetState openedBreaker = StateOpen
  /\ GetState (snd (fst (ExecuteAll openedBreaker
                           [successfulCall (noon + 202 * Millisecond);
                            successfulCall (noon + 203 * Millisecond)] freshWorld)))
     = StateClosed.
Proof.
  split; [reflexivity|].
  assert (H1 : currentState openedBreaker = StateOpen) by reflexivity.
  assert (H2 : resetTimeout openedBreaker
               < Since (noon + 202 * Millisecond) (lastFailureTime openedBreaker))
    by (vm_compute; reflexivity).
  destruct (breaker_probes_and_recovers openedBreaker (noon + 202 * Millisecond)
              freshWorld H1 H2) as (_ & _ & _ & H).
  apply (H (successfulCall (noon + 202 * Millisecond))
           (successfulCall (noon + 203 * Millisecond)) eq_refl);
    intros w; reflexivity.
Defined.



End BreakerWitnesses.

(** ** tx: the nonce tracker *)

Section TrackerFacts.

Import tx.

Variable DurationString : Duration -> string.

Implicit Types (n : NonceTracker) (r : NonceResponse).

Lemma IncrementAndGet_first n :
  isFirstFetch n = true ->
  snd (IncrementAndGet n) = nonceData n
  /\ nonceData (fst (IncrementAndGet n)) = nonceData n
  /\ isFirstFetch (fst (IncrementAndGet n)) = false.
Proof. intros H. unfold IncrementAndGet. rewrite H. simpl. auto. Qed.

Lemma IncrementAndGet_later n :
  isFirstFetch n = false ->
  snd (IncrementAndGet n)
  = {| Nonce := uwrap64 (Nonce (nonceData n) + 1); Accnum := Accnum (nonceData n) |}
  /\ nonceData (fst (IncrementAndGet n)) = snd (IncrementAndGet n)
  /\ isFirstFetch (fst (IncrementAndGet n)) = false.
Proof. intros H. unfold IncrementAndGet. rewrite H. simpl. auto. Qed.

Lemma sequenceFrom_cons nonce accnum start k :
  sequenceFrom nonce accnum start (S k)
  = {| Nonce := uwrap64 (nonce + Z.of_nat start); Accnum := accnum |}
    :: sequenceFrom nonce accnum (S start) k.
Proof. reflexivity. Qed.

Lemma sequenceFrom_shift nonce accnum start k :
  sequenceFrom (uwrap64 (nonce + 1)) accnum start k
  = sequenceFrom nonce accnum (S start) k.
Proof.
  unfold sequenceFrom. rewrite <- seq_shift, map_map. apply map_ext. intros i.
  f_equal. unfold uwrap64. rewrite Z.add_mod_idemp_l by lia. f_equal. lia.
Qed.

Lemma IncrementAndGetTimes_succ k n :
  snd (IncrementAndGetTimes (S k) n)
  = snd (IncrementAndGet n) :: snd (IncrementAndGetTimes k (fst (IncrementAndGet n))).
Proof.
  change (IncrementAndGetTimes (S k) n)
    with (let '(n1, r) := IncrementAndGet n in
          let '(n2, rs) := IncrementAndGetTimes k n1 in (n2, r :: rs)).
  destruct (IncrementAndGet n) as [n1 r]. simpl.
  now destruct (IncrementAndGetTimes k n1).
Qed.

(** After the first call, each call hands out the next sequence number. *)
Lemma IncrementAndGetTimes_later k :
  forall n,
    isFirstFetch n = false ->
    snd (IncrementAndGetTimes k n)
    = sequenceFrom (Nonce (nonceData n)) (Accnum (nonceData n)) 1 k.
Proof.
  induction k as [|k IH]; intros n Hn; [reflexivity|].
  destruct (IncrementAndGet_later n Hn) as (Hr & Hd & Hf).
  rewrite IncrementAndGetTimes_succ, (IH _ Hf), Hd, Hr.
  cbn [Nonce Accnum]. rewrite sequenceFrom_cons, sequenceFrom_shift. reflexivity.
Qed.

(** The first call hands out the stored record itself. *)
Lemma IncrementAndGetTimes_first k n :
  isFirstFetch n = true ->
  0 <= Nonce (nonceData n) < 2 ^ 64 ->
  snd (IncrementAndGetTimes k n)
  = sequenceFrom (Nonce (nonceData n)) (Accnum (nonceData n)) 0 k.
Proof.
  intros Hn Hrange. destruct k as [|k]; [reflexivity|].
  destruct (IncrementAndGet_first n Hn) as (Hr & Hd & Hf).
  rewrite IncrementAndGetTimes_succ, (IncrementAndGetTimes_later k _ Hf), Hd, Hr.
  rewrite sequenceFrom_cons. f_equal.
  change (Z.of_nat 0) with 0.
  rewrite Z.add_0_r, uwrap64_small by exact Hrange. now destruct (nonceData n).
Qed.

(** What a [ForceRefetch] without error has done. *)
Lemma ForceRefetch_success n now ev clock n' r :
  ForceRefetch DurationString n now ev clock = (n', (r, None)) ->
  forceRefetchInterval n < Since now (lastRefetch n)
  /\ ev = received r None
  /\ nonceData n' = r
  /\ lastRefetch n' = clock
  /\ isFirstFetch n' = isFirstFetch n.
Proof.
  unfold ForceRefetch.
  destruct (forceRefetchInterval n <? Since now (lastRefetch n)) eqn:E; [|discriminate].
  destruct ev as [ctxErr | nonce [err|]]; simpl; try discriminate.
  intros H. injection H as <- <-. simpl. repeat split. lia.
Qed.

(** C3, as the tracker has it: the first [IncrementAndGet] after
    construction returns the zero-value record and leaves it stored; after
    a successful [ForceRefetch] that stored sequence number [S], the calls
    that follow return [S, S+1, S+2, ...] (modulo 2^64) when
    [IncrementAndGet] had not been called before the refetch, and
    [S+1, S+2, ...] when it had: only the first call of a tracker's life
    does not increment. *)
Theorem IncrementAndGet_sequence :
  (forall interval timeout : Duration,
      snd (IncrementAndGet (NewNonceTracker interval timeout)) = zeroNonceResponse
      /\ nonceData (fst (IncrementAndGet (NewNonceTracker interval timeout)))
         = zeroNonceResponse)
  /\ (forall n now ev clock n' r,
        ForceRefetch DurationString n now ev clock = (n', (r, None)) ->
        0 <= Nonce r < 2 ^ 64 ->
        forall k : nat,
          snd (IncrementAndGetTimes k n')
          = sequenceFrom (Nonce r) (Accnum r) (if isFirstFetch n then 0 else 1) k).
Proof.
  split.
  - intros interval timeout. split; reflexivity.
  - intros n now ev clock n' r Hok Hrange k.
    destruct (ForceRefetch_success n now ev clock n' r Hok) as (_ & _ & Hd & _ & Hf).
    destruct (isFirstFetch n) eqn:E.
    + rewrite IncrementAndGetTimes_first; rewrite ?Hd; congruence.
    + rewrite IncrementAndGetTimes_later; rewrite ?Hd; congruence.
Qed.

(** C6: a [ForceRefetch] made when at most [forceRefetchInterval] has
    passed since the last refetch fails at once, with an error whose message
    names the time passed and the interval, and leaves the tracker as it
    was; made when more has passed it does the refetch, and when that
    returns no error the record fetched is stored and returned and the
    last-refetch time is the clock read then, later than the previous one
    (for an interval that is not negative and a clock that does not go
    back). *)
Theorem ForceRefetch_throttled n (now : Time) (ev : refetched) (clock : Time) :
  (Since now (lastRefetch n) <= forceRefetchInterval n ->
   ForceRefetch DurationString n now ev clock
   = (n, (zeroNonceResponse,
          Some (errorString
                  ("failed to force refetch time since ("
                   ++ DurationString (Since now (lastRefetch n))
                   ++ "), force refetch interval ("
                   ++ DurationString (forceRefetchInterval n) ++ ")")))))
  /\ (forceRefetchInterval n < Since now (lastRefetch n) ->
      ForceRefetch DurationString n now ev clock = refetchAndUpdateNonce n ev clock
      /\ (forall nonce,
            ev = received nonce None ->
            snd (ForceRefetch DurationString n now ev clock) = (nonce, None))
      /\ (forall n' r,
            ForceRefetch DurationString n now ev clock = (n', (r, None)) ->
            nonceData n' = r
            /\ GetLastRefetchTime n' = clock
            /\ (0 <= forceRefetchInterval n -> now <= clock ->
                GetLastRefetchTime n < GetLastRefetchTime n'))).
Proof.
  split.
  - intros Hle. unfold ForceRefetch.
    destruct (forceRefetchInterval n <? Since now (lastRefetch n)) eqn:E; [lia | reflexivity].
  - intros Hlt.
    assert (Hgo : ForceRefetch DurationString n now ev clock
                  = refetchAndUpdateNonce n ev clock).
    { unfold ForceRefetch.
      destruct (forceRefetchInterval n <? Since now (lastRefetch n)) eqn:E; [reflexivity | lia]. }
    split; [exact Hgo|]. split.
    + intros nonce ->. rewrite Hgo. reflexivity.
    + intros n' r Hok.
      destruct (ForceRefetch_success n now ev clock n' r Hok) as (_ & _ & Hd & Hl & _).
      unfold GetLastRefetchTime. split; [exact Hd|]. split; [exact Hl|].
      intros Hint Hclock. rewrite Hl.
      assert (lastRefetch n < now) by (apply Sub_pos; unfold Since in Hlt; lia).
      lia.
Qed.

(** C9: whenever [ForceRefetch] returns an error, be it the throttling
    error, the error of the done context or the error of the fetch, the
    record it returns is the zero value (and the tracker is as it was). *)
Theorem ForceRefetch_error_zero n (now : Time) (ev : refetched) (clock : Time)
    n' r (e : error) :
  ForceRefetch DurationString n now ev clock = (n', (r, Some e)) ->
  r = zeroNonceResponse /\ n' = n.
Proof.
  unfold ForceRefetch.
  destruct (forceRefetchInterval n <? Since now (lastRefetch n)).
  - destruct ev as [ctxErr | nonce [err|]]; simpl; intros H; try discriminate;
      injection H as <- <- _; auto.
  - intros H. injection H as <- <- _. auto.
Qed.

End TrackerFacts.

Section TrackerWitnesses.

Import tx scenarios.

Lemma IncrementAndGet_sequence_witness :
  snd (IncrementAndGetTimes 3 refetchedTracker)
  = [{| Nonce := 10; Accnum := 1 |}; {| Nonce := 11; Accnum := 1 |};
     {| Nonce := 12; Accnum := 1 |}].
Proof.
  assert (Hok : ForceRefetch nanoseconds testTracker noon (fetched 10) noon
                = (refetchedTracker, ({| Nonce := 10; Accnum := 1 |}, None)))
    by reflexivity.
  assert (Hrange : 0 <= Nonce {| Nonce := 10; Accnum := 1 |} < 2 ^ 64)
    by (vm_compute; split; [discriminate | reflexivity]).
  exact (proj2 (IncrementAndGet_sequence nanoseconds) testTracker noon (fetched 10) noon
           refetchedTracker {| Nonce := 10; Accnum := 1 |} Hok Hrange 3%nat).
Defined.

(** C3 as stated fails: [IncrementAndGet] is called right after
    construction and returns the zero value; the refetch that follows
    stores sequence number 10; the calls after it return 11, 12, 13. *)
Lemma IncrementAndGet_then_refetch_skips :
  let n1 := fst (IncrementAndGet testTracker) in
  let refetch := ForceRefetch nanoseconds n1 noon (fetched 10) noon in
  snd (IncrementAndGet testTracker) = zeroNonceResponse
  /\ snd refetch = ({| Nonce := 10; Accnum := 1 |}, None)
  /\ nonceData (fst refetch) = {| Nonce := 10; Accnum := 1 |}
  /\ map Nonce (snd (IncrementAndGetTimes 3 (fst refetch))) = [11; 12; 13]
  /\ map Nonce (snd (IncrementAndGetTimes 3 (fst refetch))) <> [10; 11; 12].
Proof.
  repeat split; try reflexivity. vm_compute. discriminate.
Qed.

Lemma ForceRefetch_throttled_witness :
  (exists timeSince,
      ForceRefetch nanoseconds refetchedTracker (noon + 1 * Second) (fetched 20)
        (noon + 1 * Second)
      = (refetchedTracker,
         (zeroNonceResponse,
          Some (errorString
                  ("failed to force refetch time since (" ++ nanoseconds timeSince
                   ++ "), force refetch interval (" ++ nanoseconds (60 * Second) ++ ")")))))
  /\ snd (ForceRefetch nanoseconds refetchedTracker (noon + 120 * Second) (fetched 20)
            (noon + 121 * Second))
     = ({| Nonce := 20; Accnum := 1 |}, None).
Proof.
  split.
  - exists (Since (noon + 1 * Second) (lastRefetch refetchedTracker)).
    apply (proj1 (ForceRefetch_throttled nanoseconds refetchedTracker (noon + 1 * Second)
                    (fetched 20) (noon + 1 * Second))).
    vm_compute. discriminate.
  - apply (proj2 (ForceRefetch_throttled nanoseconds refetchedTracker (noon + 120 * Second)
                    (fetched 20) (noon + 121 * Second))).
    + vm_compute. reflexivity.
    + reflexivity.
Defined.

Lemma ForceRefetch_error_zero_witness :
  fst (snd (ForceRefetch nanoseconds refetchedTracker (noon + 120 * Second)
              (received {| Nonce := 20; Accnum := 1 |} (Some (errorString "fetch error")))
              (noon + 121 * Second)))
  = zeroNonceResponse.
Proof.
  apply (ForceRefetch_error_zero nanoseconds refetchedTracker (noon + 120 * Second)
           (received {| Nonce := 20; Accnum := 1 |} (Some (errorString "fetch error")))
           (noon + 121 * Second) refetchedTracker _ (errorString "fetch error")).
  reflexivity.
Defined.

End TrackerWitnesses.

(** ** async: the request processor *)

Section AsyncFacts.

Import retry async.

Context {T R W : Type}.
Variable zeroR : R.
Variable DurationString : Duration -> string.
Variable Process : Context -> Request T -> W -> (R * option error) * W.

Local Abbreviation step := (async.step zeroR DurationString Process).
Local Abbreviation run := (async.run zeroR DurationString Process).
Local Abbreviation buildResponse := (async.buildResponse zeroR DurationString Process).

Implicit Types (s : system T R W) (a : action T) (p : AsyncRequestProcessor T R).

Lemma run_app (tr1 tr2 : list (action T)) s :
  run (tr1 ++ tr2) s
  = match run tr1 s with
    | Some s' => run tr2 s'
    | None => None
    end.
Proof.
  revert s. induction tr1 as [|a tr1 IH]; intros s; simpl; [reflexivity|].
  destruct (step a s); [apply IH | reflexivity].
Qed.

Lemma processed_noteHandled s req resp b :
  processed (noteHandled s req resp b) = processed s ++ [req].
Proof. unfold processed. simpl. now rewrite map_app. Qed.

Lemma pushed_noteHandled s req resp b :
  pushed (noteHandled s req resp b) = pushed s ++ (if b then [resp] else []).
Proof.
  unfold pushed. simpl. rewrite filter_app, map_app. simpl. now destruct b.
Qed.

(** A response that has been built carries the identifier of its request. *)
Lemma buildResponse_id p req sels t0 t1 w resp w' :
  buildResponse p req sels t0 t1 w = Ok (Some (resp, w')) ->
  RequestID resp = ID req.
Proof.
  unfold async.buildResponse, process. destruct (retryConfig p) as [cfg|]; [|discriminate].
  destruct (RetryWithBackoff _ _ _ _ _ _ _) as [[err|] [d w2]]; [|discriminate].
  intros H. injection H as <- _. reflexivity.
Qed.

Lemma buildResponse_no_panic p req sels t0 t1 w msg :
  retryConfig p <> None -> buildResponse p req sels t0 t1 w <> Panic msg.
Proof.
  intros Hcfg. unfold async.buildResponse. destruct (retryConfig p) as [cfg|]; [|congruence].
  destruct (RetryWithBackoff _ _ _ _ _ _ _) as [[err|] [d w2]]; discriminate.
Qed.

Ltac splitStep H s' :=
  repeat match type of H with
         | Some _ = Some _ => injection H as H; subst s'
         | None = Some _ => discriminate H
         | (if ?b then _ else _) = Some _ => destruct b eqn:?
         | match ?x with _ => _ end = Some _ => destruct x eqn:?
         end.

(** Every step keeps the state consistent. *)
Lemma step_consistent a s s' :
  step a s = Some s' -> consistent s -> consistent s'.
Proof.
  intros Hstep
    (Hcfg & Hacc & Hpush & Hids & Hid & Hstarted & Hwg & Hnot & Hdone & Hstop & Hclosed).
  unfold async.step in Hstep.
  destruct a; unfold stepStart, stepSubmit, stepStopCancel, stepStopWait, stepStopClose,
    stepReceive, stepWorkerSelect, stepWorkerBuild in Hstep.
  all: splitStep Hstep s'.
  all: try match goal with
           | H : async.buildResponse _ _ _ _ _ _ _ _ _ = Panic _ |- _ =>
               exfalso; exact (buildResponse_no_panic _ _ _ _ _ _ _ Hcfg H)
           | H : async.buildResponse _ _ _ _ _ _ _ _ _ = Ok (Some _) |- _ =>
               apply buildResponse_id in H
           end.
  all: try match goal with
           | d : bool |- context [backTo ?d] => destruct d
           end.
  all: unfold consistent, processed, pushed in *; simpl in *.
  all: try match goal with H : worker _ = _ |- _ => rewrite H in * end.
  all: simpl in *.
  all: repeat rewrite map_app; repeat rewrite filter_app; simpl.
  all: repeat match goal with |- _ /\ _ => split end.
  all: intros.
  all: try solve [ assumption | congruence | discriminate
                 | intuition (try congruence; try discriminate) ].
  all: try solve [ rewrite Hacc, <- ?app_assoc; reflexivity ].
  all: try solve [ rewrite <- Hpush, <- ?app_assoc; reflexivity ].
  all: try solve [ rewrite ?app_nil_r, ?map_app, <- ?Hpush, <- ?app_assoc; reflexivity ].
  all: try solve [ match goal with
                   | H : atSendSelect _ _ _ = atSendSelect _ _ _ |- _ =>
                       injection H as <- <- <-; eauto
                   end ].
  all: try solve [ apply Forall_app; split; [assumption | repeat constructor; simpl; eauto] ].
  Qed.

Lemma run_consistent (tr : list (action T)) :
  forall s s', run tr s = Some s' -> consistent s -> consistent s'.
Proof.
  induction tr as [|a tr IH]; intros s s' Hrun Hs; simpl in Hrun.
  - now injection Hrun as <-.
  - destruct (step a s) as [s1|] eqn:E; [|discriminate].
    eapply IH; [exact Hrun | eapply step_consistent; eassumption].
Qed.

(** While no request is submitted once [Stop] has begun, the worker does
    not leave a request behind. *)
Lemma step_drained a s s' :
  step a s = Some s' -> consistent s ->
  isSubmit a = false \/ stopper s = stopNotCalled ->
  drained s -> drained s'.
Proof.
  intros Hstep
    (Hcfg & Hacc & Hpush & Hids & Hid & Hstarted & Hwg & Hnot & Hdone & Hstop & Hclosed)
    Hwhen Hdr.
  unfold async.step in Hstep.
  destruct a; unfold stepStart, stepSubmit, stepStopCancel, stepStopWait, stepStopClose,
    stepReceive, stepWorkerSelect, stepWorkerBuild in Hstep.
  all: splitStep Hstep s'.
  all: try match goal with
           | d : bool |- context [backTo ?d] => destruct d
           end.
  all: unfold drained in *; simpl in *.
  all: try match goal with H : worker _ = _ |- _ => rewrite H in * end.
  all: simpl in *.
  all: intros.
  all: try solve [ assumption | congruence | discriminate | auto
                 | intuition (try congruence; try discriminate) ].
Qed.

Lemma run_drained (tr : list (action T)) :
  forall s s',
    run tr s = Some s' -> consistent s ->
    Forall (fun a => isSubmit a = false) tr ->
    drained s -> drained s'.
Proof.
  induction tr as [|a tr IH]; intros s s' Hrun Hs Hno Hdr; simpl in Hrun.
  - now injection Hrun as <-.
  - destruct (step a s) as [s1|] eqn:E; [|discriminate].
    inversion Hno as [|? ? Ha Hno']; subst.
    eapply IH; [exact Hrun | eapply step_consistent; eassumption | exact Hno' |].
    eapply step_drained; eauto.
Qed.

(** Before [Stop] the worker has not left its loop. *)
Lemma not_stopping_not_exited s :
  consistent s -> stopper s = stopNotCalled -> worker s <> exited.
Proof.
  intros (_ & _ & _ & _ & _ & _ & _ & Hnot & Hdone & _) Hst Hex.
  rewrite Hex in Hdone. specialize (Hdone eq_refl). specialize (Hnot Hst). congruence.
Qed.

(** C1 fails on the code: with a [nil] retry configuration [process]
    dereferences the [nil] pointer before it calls the processing function.
    The worker panics on the first request it takes: the function is never
    invoked (the world is untouched) and no response is produced. *)
Theorem nil_retryConfig_panics (bufferSize : nat) (req : Request T)
    (sels : list selected) (startClock endClock : Time) (w : W) :
  process Process (NewAsyncRequstProcessor bufferSize NoRetryConfig) req w
  = Panic nilDereference
  /\ buildResponse (NewAsyncRequstProcessor bufferSize NoRetryConfig) req sels
       startClock endClock w
     = Panic nilDereference
  /\ exists s,
      run [Start; Submit req onChannel; WorkerSelect onChannel;
           WorkerBuild sels startClock endClock]
        (initial (NewAsyncRequstProcessor (S bufferSize) NoRetryConfig) w)
      = Some s
      /\ worker s = panicked nilDereference
      /\ world s = w
      /\ accepted s = [req]
      /\ handled s = []
      /\ responseChan (proc s) = []
      /\ forall a, step a s = None.
Proof.
  split; [reflexivity|]. split; [reflexivity|].
  eexists. split; [reflexivity|]. simpl. repeat split; reflexivity.
Qed.

(** C2, as the processor has it: when requests are submitted to a started
    processor that has a retry policy (and buffered channels, the capacity
    being at least 1) and [Stop] is called after the last of them, then by the time [Stop] returns the worker has exited, the
    input queue is empty, and [processRequest] has been run exactly once on
    every accepted request, in the order of acceptance; each run has
    produced one response that carries the request's identifier, and the
    output queue has received, in order, those of the responses whose send
    was chosen by the [select] of [processRequest] (a response whose
    [select] took the [ctx.Done()] branch is discarded). *)
Theorem Stop_drains_accepted_requests (bufferSize : nat) (cfg : RetryConfig) (w0 : W)
    (tr1 tr2 : list (action T)) s :
  (1 <= bufferSize)%nat ->
  run (Start :: tr1 ++ StopCancel :: tr2)
    (initial (NewAsyncRequstProcessor bufferSize (Some cfg)) w0) = Some s ->
  Forall (fun a => isSubmit a = false) tr2 ->
  stopper s = stopReturned ->
  worker s = exited
  /\ requestChan (proc s) = []
  /\ processed s = accepted s
  /\ Forall (fun h => RequestID (snd (fst h)) = ID (fst (fst h))) (handled s)
  /\ delivered s ++ responseChan (proc s) = pushed s.
Proof.
  intros _ Hrun Hno Hret.
  change (Start :: tr1 ++ StopCancel :: tr2)
    with ([Start] ++ tr1 ++ [StopCancel] ++ tr2) in Hrun.
  rewrite run_app in Hrun.
  destruct (run [Start] (initial (NewAsyncRequstProcessor bufferSize (Some cfg)) w0))
    as [s1|] eqn:E1; [|discriminate].
  assert (H1 : consistent s1).
  { simpl in E1. injection E1 as <-. unfold consistent. simpl.
    repeat split; try discriminate; auto. intros [H | H]; discriminate. }
  rewrite run_app in Hrun.
  destruct (run tr1 s1) as [s2|] eqn:E2; [|discriminate].
  pose proof (run_consistent tr1 s1 s2 E2 H1) as H2.
  rewrite run_app in Hrun.
  destruct (run [StopCancel] s2) as [s3|] eqn:E3; [|discriminate].
  pose proof (run_consistent _ _ _ E3 H2) as H3.
  assert (Hst2 : stopper s2 = stopNotCalled).
  { simpl in E3. unfold async.step, stepStopCancel in E3.
    destruct (worker s2); try discriminate; destruct (stopper s2); try discriminate; reflexivity. }
  assert (Hd3 : drained s3).
  { simpl in E3. destruct (step StopCancel s2) as [s3'|] eqn:E3'; [|discriminate].
    injection E3 as <-.
    eapply step_drained; [exact E3' | exact H2 | now right |].
    intros Hex. now apply not_stopping_not_exited in Hex. }
  pose proof (run_consistent _ _ _ Hrun H3) as Hs.
  pose proof (run_drained _ _ _ Hrun H3 Hno Hd3) as Hd.
  destruct Hs as (_ & Hacc & Hpush & Hids & _ & _ & _ & _ & _ & Hstop & _).
  assert (Hex : worker s = exited) by (apply Hstop; now right).
  split; [exact Hex|]. split; [exact (Hd Hex)|].
  rewrite Hex, (Hd Hex) in Hacc. simpl in Hacc. rewrite app_nil_r in Hacc.
  split; [now symmetry|]. split; assumption.
Qed.

End AsyncFacts.


Section AsyncWitnesses.

Import retry async scenarios.

Lemma Stop_drains_accepted_requests_witness :
  exists s,
    run 0%nat nanoseconds double (Start :: submitBoth ++ StopCancel :: drainAndSendBoth)
      (initial testProcessor 0%nat) = Some s
    /\ stopper s = stopReturned
    /\ accepted s = [request1; request2]
    /\ processed s = accepted s
    /\ map RequestID (responseChan (proc s)) = ["1"%string; "2"%string].
Proof.
  destruct (run 0%nat nanoseconds double
              (Start :: submitBoth ++ StopCancel :: drainAndSendBoth)
              (initial testProcessor 0%nat)) as [s|] eqn:Hrun;
    [|vm_compute in Hrun; discriminate].
  assert (Hno : Forall (fun a : action nat => isSubmit a = false) drainAndSendBoth)
    by (repeat constructor).
  assert (Hfinal : stopper s = stopReturned
                   /\ accepted s = [request1; request2]
                   /\ map RequestID (responseChan (proc s)) = ["1"%string; "2"%string]).
  { vm_compute in Hrun. injection Hrun as <-. repeat split. }
  destruct Hfinal as (Hret & Hacc & Hout).
  exists s. split; [reflexivity|]. split; [exact Hret|]. split; [exact Hacc|].
  split; [|exact Hout].
  apply (Stop_drains_accepted_requests 0%nat nanoseconds double 2 testConfig 0%nat
           submitBoth drainAndSendBoth s (le_S 1 1 (le_n 1)) Hrun Hno Hret).
Defined.

(** C2 as stated fails: two requests are accepted by a processor of
    capacity 2 and [Stop] is called; both are processed, but the [select]
    of [processRequest] takes the [ctx.Done()] branch for the first
    response, so when [Stop] returns only the second one has reached the
    output queue. *)
Lemma Stop_discards_a_response :
  exists s,
    run 0%nat nanoseconds double (Start :: submitBoth ++ StopCancel :: drainAndDiscardFirst)
      (initial testProcessor 0%nat) = Some s
    /\ stopper s = stopReturned
    /\ (List.length submitBoth <= bufferSize testProcessor)%nat
    /\ accepted s = [request1; request2]
    /\ processed s = [request1; request2]
    /\ world s = 2%nat
    /\ delivered s = []
    /\ map RequestID (responseChan (proc s)) = ["2"%string]
    /\ List.length (delivered s ++ responseChan (proc s)) <> List.length (accepted s).
Proof.
  eexists. split; [vm_compute; reflexivity|].
  vm_compute. repeat split; auto. discriminate.
Qed.

End AsyncWitnesses.

(** ** retry: more on the retry loop *)

Section RetryMore.

Import retry.

Local Arguments isNonRetriable : simpl never.

Variable DurationString : Duration -> string.
Context {Ctx W : Type}.
Variable ctx : Ctx.
Variable cfg : RetryConfig.
Variable operation : Ctx -> W -> option error * W.






(** What a run that has returned has done. *)
Lemma retryLoop_returned patterns :
  forall sels interval w r w',
    retryLoop DurationString ctx cfg operation patterns sels interval w = (Returned r, w') ->
    exists k,
      (k <= List.length sels)%nat
      /\ w' = afterCalls ctx operation (S k) w
      /\ (forall j, (j < k)%nat ->
            exists e, fst (operation ctx (afterCalls ctx operation j w)) = Some e
                      /\ isNonRetriable (Some e) patterns = false)
      /\ match fst (operation ctx (afterCalls ctx operation k w)) with
         | None => r = None
         | Some e =>
             (r = Some e /\ isNonRetriable (Some e) patterns = true)
             \/ (isNonRetriable (Some e) patterns = false
                 /\ (r = Some (timedOut DurationString cfg e)
                     \/ exists ctxErr, In (ctxDone ctxErr) sels /\ r = Some ctxErr))
         end.
Proof.
  induction sels as [|sel sels IH]; intros interval w r w' Hrun; simpl in Hrun;
    destruct (operation ctx w) as [[e|] w1] eqn:Hop.
  - destruct (isNonRetriable (Some e) patterns) eqn:Hn; [|discriminate].
    injection Hrun as <- <-. exists 0%nat. simpl. rewrite Hop. simpl.
    repeat split; auto; try (intros j Hj; lia); try lia.
  - injection Hrun as <- <-. exists 0%nat. simpl. rewrite Hop. simpl.
    repeat split; auto; try (intros j Hj; lia); try lia.
  - destruct (isNonRetriable (Some e) patterns) eqn:Hn.
    + injection Hrun as <- <-. exists 0%nat. simpl. rewrite Hop. simpl.
      repeat split; auto; try (intros j Hj; lia); try lia.
    + destruct sel as [ctxErr| |].
      * injection Hrun as <- <-. exists 0%nat. simpl. rewrite Hop. simpl.
        split; [lia|]. split; [reflexivity|]. split; [intros j Hj; lia|].
        right. split; [exact Hn|]. right. exists ctxErr. split; [now left | reflexivity].
      * injection Hrun as <- <-. exists 0%nat. simpl. rewrite Hop. simpl.
        split; [lia|]. split; [reflexivity|]. split; [intros j Hj; lia|].
        right. split; [exact Hn|]. now left.
      * destruct (IH _ _ _ _ Hrun) as (k & Hk & Hw & Hpre & Hlast).
        exists (S k). split; [simpl; lia|].
        change (afterCalls ctx operation (S (S k)) w)
          with (afterCalls ctx operation (S k) (snd (operation ctx w))).
        change (afterCalls ctx operation (S k) w)
          with (afterCalls ctx operation k (snd (operation ctx w))).
        rewrite Hop. simpl snd. split; [exact Hw|]. split.
        -- intros j Hj. destruct j as [|j].
           ++ exists e. simpl. rewrite Hop. now split.
           ++ simpl. rewrite Hop. simpl. apply Hpre. lia.
        -- destruct (fst (operation ctx (afterCalls ctx operation k w1))) as [e'|]; [|exact Hlast].
           destruct Hlast as [Hl | [Hn' [Hl | (ce & Hin & Hl)]]]; auto.
           right. split; [exact Hn'|]. right. exists ce. split; [now right | exact Hl].
  - injection Hrun as <- <-. exists 0%nat. simpl. rewrite Hop. simpl.
    repeat split; auto; try (intros j Hj; lia); try lia.
Qed.
(** X2: a run that has returned has invoked the operation [k+1] times, one
    after the other, for some [k] that is at most the number of [select]s
    resolved; the first [k] attempts failed with retriable errors; and the
    value returned is [nil] exactly when the last attempt returned [nil]:
    after a failed last attempt it is that attempt's error (non-retriable),
    that error wrapped by the time-out, or the error of the done context. *)
Theorem RetryWithBackoff_returned (patterns : list string) (sels : list selected)
    (w : W) (r : option error) (w' : W) :
  RetryWithBackoff DurationString ctx cfg operation patterns sels w = (Returned r, w') ->
  exists k,
    (k <= List.length sels)%nat
    /\ w' = afterCalls ctx operation (S k) w
    /\ (forall j, (j < k)%nat ->
          exists e, fst (operation ctx (afterCalls ctx operation j w)) = Some e
                    /\ isNonRetriable (Some e) patterns = false)
    /\ match fst (operation ctx (afterCalls ctx operation k w)) with
       | None => r = None
       | Some e =>
           (r = Some e /\ isNonRetriable (Some e) patterns = true)
           \/ (isNonRetriable (Some e) patterns = false
               /\ (r = Some (timedOut DurationString cfg e)
                   \/ exists ctxErr, In (ctxDone ctxErr) sels /\ r = Some ctxErr))
       end.
Proof. apply retryLoop_returned. Qed.



(** X3: an empty string among the patterns makes every error
    non-retriable: the first failed attempt ends the retrying, whatever the
    other patterns and the [select]s. *)
Theorem empty_pattern_ends_retrying (patterns : list string) (e : error) :
  In ""%string patterns ->
  isNonRetriable (Some e) patterns = true
  /\ forall (sels : list selected) (w w' : W),
      operation ctx w = (Some e, w') ->
      RetryWithBackoff DurationString ctx cfg operation patterns sels w
      = (Returned (Some e), w').
Proof.
  intros Hin.
  assert (Hn : isNonRetriable (Some e) patterns = true).
  { apply isNonRetriable_spec. exists ""%string. split; [exact Hin|].
    exists ""%string, ""%string, (Error e). split; reflexivity. }
  split; [exact Hn|]. intros sels w w' Hop.
  now apply retryLoop_nonRetriable.
Qed.


End RetryMore.

(** ** circuitbreaker: more on the state machine *)

Section BreakerMore.

Import circuitbreaker.
Context {W : Type}.
Implicit Types (cb : circuitBreaker W) (w : W).



(** The three ways a call can go. *)
Lemma Execute_cases cb (t1 t2 : Time) (op : W -> option error * W) w :
  (currentState cb = StateOpen
   /\ Since t1 (lastFailureTime cb) <= resetTimeout cb
   /\ Execute cb t1 t2 op w = (Some errCircuitOpen, cb, w))
  \/ (currentState cb <> StateOpen
      /\ fst (fst (Execute cb t1 t2 op w)) = fst (op w))
  \/ (currentState cb = StateOpen
      /\ resetTimeout cb < Since t1 (lastFailureTime cb)
      /\ fst (fst (Execute cb t1 t2 op w))
         = fst (op (onStateChange cb StateOpen StateHalfOpen w))).
Proof.
  destruct (currentState cb) eqn:Hst.
  - right. left. split; [discriminate|]. rewrite Execute_admitted by congruence. reflexivity.
  - right. left. split; [discriminate|]. rewrite Execute_admitted by congruence. reflexivity.
  - destruct (Z_lt_le_dec (resetTimeout cb) (Since t1 (lastFailureTime cb))) as [Hlt | Hle].
    + right. right. split; [reflexivity|]. split; [exact Hlt|].
      destruct (allowRequest_Open_probe cb t1 w Hst Hlt) as (cb1 & Hallow & Hst1 & _).
      unfold Execute. rewrite Hallow. simpl.
      destruct (op (onStateChange cb StateOpen StateHalfOpen w)) as [err w2]. simpl.
      now destruct (handleResult cb1 t2 err w2).
    + left. split; [reflexivity|]. split; [exact Hle|]. now apply Execute_Open_rejects.
Qed.

(** X6: [Execute] never swallows or alters the operation's result: either
    the breaker is open and at most [resetTimeout] has passed since the last
    failure, and the call is rejected with the circuit-open error, breaker
    and world untouched; or the operation is invoked (after the
    [onStateChange] callback when the call half-opens the breaker) and what
    it returns, error or [nil], is what [Execute] returns. *)
Theorem Execute_returns_what_the_operation_returns cb (t1 t2 : Time)
    (op : W -> option error * W) w :
  (currentState cb = StateOpen
   /\ Since t1 (lastFailureTime cb) <= resetTimeout cb
   /\ Execute cb t1 t2 op w = (Some errCircuitOpen, cb, w))
  \/ (currentState cb <> StateOpen
      /\ fst (fst (Execute cb t1 t2 op w)) = fst (op w))
  \/ (currentState cb = StateOpen
      /\ resetTimeout cb < Since t1 (lastFailureTime cb)
      /\ fst (fst (Execute cb t1 t2 op w))
         = fst (op (onStateChange cb StateOpen StateHalfOpen w))).
Proof. apply Execute_cases. Qed.

(** A closed breaker counts failing calls as long as the threshold is not reached. *)
Lemma closed_counts_failures :
  forall (calls : list (call W)) cb w,
    currentState cb = StateClosed ->
    0 <= failureCount cb ->
    failureCount cb + Z.of_nat (List.length calls) < failureThreshold cb ->
    failureThreshold cb <= maxInt64 ->
    Forall failing calls ->
    currentState (snd (fst (ExecuteAll cb calls w))) = StateClosed
    /\ failureCount (snd (fst (ExecuteAll cb calls w)))
       = failureCount cb + Z.of_nat (List.length calls)
    /\ Forall (fun e => e <> None) (fst (fst (ExecuteAll cb calls w))).
Proof.
  induction calls as [|c calls IH]; intros cb w Hst Hfc Hlt Hmax Hfail.
  - simpl. repeat split; auto. lia.
  - inversion Hfail as [|? ? Hf Hfs]; subst.
    change (List.length (c :: calls)) with (S (List.length calls)) in *.
    destruct (fst (operation c w)) as [e|] eqn:He; [|now apply Hf in He].
    assert (Hwrap : wrap64 (failureCount cb + 1) = failureCount cb + 1).
    { apply wrap64_small. unfold minInt64, maxInt64 in *. lia. }
    assert (Hex : exists cb1 w1,
               Execute cb (admitClock c) (resultClock c) (operation c) w = (Some e, cb1, w1)
               /\ currentState cb1 = StateClosed
               /\ failureCount cb1 = failureCount cb + 1
               /\ failureThreshold cb1 = failureThreshold cb).
    { rewrite Execute_admitted by congruence. rewrite He. simpl.
      destruct (onFailure_Closed_below cb (resultClock c) e (snd (operation c w)) Hst)
        as (cb1 & -> & Hst1 & Hf1 & _ & _ & (Hth & _)); [lia|].
      exists cb1. eexists. simpl. repeat split; auto. congruence. }
    destruct Hex as (cb1 & w1 & Hex & Hst1 & Hf1 & Hth1).
    assert (H0 : 0 <= failureCount cb1) by lia.
    assert (H1 : failureCount cb1 + Z.of_nat (List.length calls) < failureThreshold cb1)
      by (rewrite Hth1; lia).
    assert (H2 : failureThreshold cb1 <= maxInt64) by (rewrite Hth1; exact Hmax).
    destruct (IH cb1 w1 Hst1 H0 H1 H2 Hfs) as (Hst2 & Hf2 & Herrs).
    simpl. rewrite Hex.
    destruct (ExecuteAll cb1 calls w1) as [[errs cb2] w2]. simpl in *.
    split; [exact Hst2|]. split; [lia|]. constructor; [discriminate | exact Herrs].
Qed.

(** X7: only failures in a row open the breaker: on a closed breaker a
    successful call puts the failure count back to zero whatever it was, so
    after it fewer than [failureThreshold] failed calls leave the breaker
    closed, the count being their number. *)
Theorem success_resets_the_failure_count cb (c : call W) (calls : list (call W)) w :
  currentState cb = StateClosed ->
  failureThreshold cb <= maxInt64 ->
  succeeds (operation c) ->
  Forall failing calls ->
  Z.of_nat (List.length calls) < failureThreshold cb ->
  GetState (snd (fst (ExecuteAll cb (c :: calls) w))) = StateClosed
  /\ failureCount (snd (fst (ExecuteAll cb (c :: calls) w))) = Z.of_nat (List.length calls).
Proof.
  intros Hst Hmax Hsucc Hfail Hlen.
  destruct (Execute_Closed_success cb (admitClock c) (resultClock c) (operation c) w Hst
              (Hsucc w)) as (cb1 & Hex & Hst1 & Hf1 & _ & _ & (Hth & _)).
  assert (H0 : 0 <= failureCount cb1) by lia.
  assert (H1 : failureCount cb1 + Z.of_nat (List.length calls) < failureThreshold cb1)
    by (rewrite Hth; lia).
  assert (H2 : failureThreshold cb1 <= maxInt64) by (rewrite Hth; exact Hmax).
  destruct (closed_counts_failures calls cb1 (snd (operation c w)) Hst1 H0 H1 H2 Hfail)
    as (Hst2 & Hf2 & _).
  simpl. rewrite Hex.
  destruct (ExecuteAll cb1 calls (snd (operation c w))) as [[errs cb2] w2]. simpl in *.
  split; [exact Hst2 | lia].
Qed.

End BreakerMore.

Section BreakerPath.

Import circuitbreaker.
Context {U : Type}.
Local Abbreviation W := (list (State * State) * U)%type.
Implicit Types (cb : circuitBreaker W) (w : W) (c : call W).





End BreakerPath.

Section BreakerRejections.

Import circuitbreaker.
Context {W : Type}.
Implicit Types (cb : circuitBreaker W) (w : W).

Lemma ExecuteAll_app (l1 l2 : list (call W)) :
  forall cb w,
    ExecuteAll cb (l1 ++ l2) w
    = let '(errs1, cb1, w1) := ExecuteAll cb l1 w in
      let '(errs2, cb2, w2) := ExecuteAll cb1 l2 w1 in
      (errs1 ++ errs2, cb2, w2).
Proof.
  induction l1 as [|c l1 IH]; intros cb w; simpl.
  - now destruct (ExecuteAll cb l2 w) as [[errs2 cb2] w2].
  - destruct (Execute cb (admitClock c) (resultClock c) (operation c) w) as [[err cb1] w1].
    rewrite IH. destruct (ExecuteAll cb1 l1 w1) as [[errs1 cb2] w2].
    now destruct (ExecuteAll cb2 l2 w2) as [[errs2 cb3] w3].
Qed.

(** X9: calls made on an open breaker no later than [resetTimeout] after
    its last failure are all rejected and change nothing, neither the
    breaker (its last-failure time included) nor the world: rejections do
    not put off the recovery, and the first call made after more than
    [resetTimeout] since that failure has its operation invoked. *)
Theorem rejected_calls_change_nothing (t0 : Time) (calls : list (call W)) cb w :
  currentState cb = StateOpen ->
  t0 <= lastFailureTime cb ->
  Forall (within t0 (resetTimeout cb)) calls ->
  ExecuteAll cb calls w = (map (fun _ => Some errCircuitOpen) calls, cb, w)
  /\ forall c : call W,
      resetTimeout cb < Since (admitClock c) (lastFailureTime cb) ->
      fst (fst (ExecuteAll cb (calls ++ [c]) w))
      = map (fun _ => Some errCircuitOpen) calls
        ++ [fst (operation c (onStateChange cb StateOpen StateHalfOpen w))].
Proof.
  intros Hst Hlast Hwin.
  pose proof (open_window_rejects t0 calls cb w Hst Hlast Hwin) as Hrej.
  split; [exact Hrej|]. intros c Hlt.
  rewrite ExecuteAll_app, Hrej. simpl.
  destruct (Execute_cases cb (admitClock c) (resultClock c)
              (operation c) w) as [(_ & Hle & _) | [(Hne & _) | (_ & _ & Hres)]];
    [lia | congruence |].
  destruct (Execute cb (admitClock c) (resultClock c) (operation c) w) as [[err cb1] w1].
  simpl in *. now rewrite Hres.
Qed.

End BreakerRejections.

(** ** tx: more on the nonce tracker *)

Section TrackerMore.

Import tx.
Variable DurationString : Duration -> string.
Implicit Types (n : NonceTracker) (r : NonceResponse).

Lemma Sub_monotone (t t' u : Time) : t <= t' -> Sub t u <= Sub t' u.
Proof.
  unfold Sub, minInt64, maxInt64. intros Hle.
  destruct (t - u <? - 2 ^ 63) eqn:E1; destruct (t' - u <? - 2 ^ 63) eqn:E2;
    destruct (2 ^ 63 - 1 <? t - u) eqn:E3; destruct (2 ^ 63 - 1 <? t' - u) eqn:E4; lia.
Qed.

(** X10: [NewNonceTrackerWithRefetch] returns a tracker or an error,
    never both and never neither.  It returns a tracker exactly when the
    first refetch delivered a record without error (which needs the
    interval to be shorter than the time since the zero [Time]); that
    tracker holds the record, its first [IncrementAndGet] returns the
    record as fetched and its second one the next sequence number.
    Otherwise the error is the refetch's error, rendered into a new
    message. *)
Theorem NewNonceTrackerWithRefetch_result (interval timeout : Duration) (now : Time)
    (ev : refetched) (clock : Time) :
  (exists n r,
      NewNonceTrackerWithRefetch DurationString interval timeout now ev clock = (Some n, None)
      /\ ev = received r None
      /\ interval < Since now zeroTime
      /\ nonceData n = r
      /\ GetLastRefetchTime n = clock
      /\ snd (IncrementAndGet n) = r
      /\ snd (IncrementAndGet (fst (IncrementAndGet n)))
         = {| Nonce := uwrap64 (Nonce r + 1); Accnum := Accnum r |})
  \/ (exists cause,
        NewNonceTrackerWithRefetch DurationString interval timeout now ev clock
        = (None, Some (errorString ("failed to force refetch nonce tracker: " ++ Error cause)))
        /\ snd (snd (ForceRefetch DurationString (NewNonceTracker interval timeout)
                       now ev clock)) = Some cause).
Proof.
  unfold NewNonceTrackerWithRefetch.
  destruct (ForceRefetch DurationString (NewNonceTracker interval timeout) now ev clock)
    as [n [r [e|]]] eqn:Hre.
  - right. exists e. split; reflexivity.
  - left. exists n, r.
    destruct (ForceRefetch_success DurationString _ _ _ _ _ _ Hre)
      as (Hlt & Hev & Hd & Hl & Hf).
    simpl in Hlt, Hf.
    destruct (IncrementAndGet_first n Hf) as (H1 & H2 & H3).
    destruct (IncrementAndGet_later _ H3) as (H4 & _).
    repeat split; auto; try congruence.
Qed.

Lemma NoDup_map_injective {A B : Type} (f : A -> B) (l : list A) :
  (forall x y, f x = f y -> x = y) -> NoDup l -> NoDup (map f l).
Proof.
  intros Hinj Hnd. induction Hnd as [|x l Hx Hnd IH]; simpl; constructor; [|exact IH].
  intros Hin. apply in_map_iff in Hin. destruct Hin as (y & Hy & Hin).
  apply Hinj in Hy. now subst y.
Qed.

(** X11: after its first call, [IncrementAndGet] hands out, as long as
    2^64 is not reached, the numbers that follow the stored one, each once
    and in increasing order, with the account number unchanged; after the
    largest sequence number, 2^64-1, it hands out 0. *)
Theorem IncrementAndGet_hands_out_distinct_numbers (k : nat) n :
  isFirstFetch n = false ->
  (0 <= Nonce (nonceData n) ->
   Nonce (nonceData n) + Z.of_nat k < 2 ^ 64 ->
   map Nonce (snd (IncrementAndGetTimes k n))
   = map (fun i : nat => Nonce (nonceData n) + Z.of_nat i) (seq 1 k)
   /\ NoDup (map Nonce (snd (IncrementAndGetTimes k n)))
   /\ Forall (fun r => Accnum r = Accnum (nonceData n)) (snd (IncrementAndGetTimes k n)))
  /\ (Nonce (nonceData n) = 2 ^ 64 - 1 ->
      snd (IncrementAndGet n) = {| Nonce := 0; Accnum := Accnum (nonceData n) |}).
Proof.
  intros Hf. split.
  - intros H0 Hk. rewrite (IncrementAndGetTimes_later k n Hf). unfold sequenceFrom.
    assert (Hmap : map Nonce
                     (map (fun i : nat =>
                             {| Nonce := uwrap64 (Nonce (nonceData n) + Z.of_nat i);
                                Accnum := Accnum (nonceData n) |}) (seq 1 k))
                   = map (fun i : nat => Nonce (nonceData n) + Z.of_nat i) (seq 1 k)).
    { rewrite map_map. apply map_ext_in. intros i Hi. apply in_seq in Hi. simpl.
      apply uwrap64_small. lia. }
    split; [exact Hmap|]. split.
    + rewrite Hmap. apply NoDup_map_injective; [|apply seq_NoDup].
      intros i j Hij. lia.
    + apply Forall_forall. intros r Hr. apply in_map_iff in Hr.
      destruct Hr as (i & <- & _). reflexivity.
  - intros Hmax. destruct (IncrementAndGet_later n Hf) as (-> & _).
    rewrite Hmax. reflexivity.
Qed.

(** X12: a refetch that succeeded starts the throttling window at the
    clock read when the record was stored: every [ForceRefetch] made no
    later than [forceRefetchInterval] after it fails with the too-soon error
    and leaves the tracker as it is.  A refetch that was attempted and
    failed (timeout, cancellation or fetch error) starts no window: the
    tracker is unchanged and a [ForceRefetch] made at any later time does
    the refetch again. *)
Theorem refetch_window (n : NonceTracker) (now : Time) (ev : refetched) (clock : Time)
    n' r (err : option error) :
  ForceRefetch DurationString n now ev clock = (n', (r, err)) ->
  (err = None ->
   0 <= forceRefetchInterval n ->
   forall (now' : Time) (ev' : refetched) (clock' : Time),
     now' - clock <= forceRefetchInterval n ->
     fst (ForceRefetch DurationString n' now' ev' clock') = n'
     /\ snd (snd (ForceRefetch DurationString n' now' ev' clock'))
        = Some (errTooSoon DurationString (Since now' clock) (forceRefetchInterval n)))
  /\ (err <> None ->
      forceRefetchInterval n < Since now (lastRefetch n) ->
      forall (now' : Time) (ev' : refetched) (clock' : Time),
        now <= now' ->
        ForceRefetch DurationString n' now' ev' clock'
        = refetchAndUpdateNonce n ev' clock').
Proof.
  intros Hre. split.
  - intros -> Hint now' ev' clock' Hsoon.
    destruct (ForceRefetch_success DurationString _ _ _ _ _ _ Hre) as (_ & Hev & _ & Hl & _).
    assert (Hi : forceRefetchInterval n' = forceRefetchInterval n).
    { subst ev. unfold ForceRefetch in Hre.
      destruct (forceRefetchInterval n <? Since now (lastRefetch n)); [|discriminate].
      simpl in Hre. inversion Hre. reflexivity. }
    assert (Hle : Since now' (lastRefetch n') <= forceRefetchInterval n').
    { rewrite Hl, Hi. unfold Since. apply Sub_le; assumption. }
    unfold ForceRefetch.
    destruct (forceRefetchInterval n' <? Since now' (lastRefetch n')) eqn:E; [lia|].
    simpl. rewrite Hl, Hi. split; reflexivity.
  - intros Herr Hlt now' ev' clock' Hlater.
    destruct err as [e|]; [|congruence].
    assert (Hn : n' = n).
    { unfold ForceRefetch in Hre.
      destruct (forceRefetchInterval n <? Since now (lastRefetch n)).
      - destruct ev as [ctxErr | nonce [fetchErr|]]; simpl in Hre; congruence.
      - congruence. }
    subst n'. unfold ForceRefetch.
    destruct (forceRefetchInterval n <? Since now' (lastRefetch n)) eqn:E; [reflexivity|].
    pose proof (Sub_monotone now now' (lastRefetch n) Hlater). unfold Since in *. lia.
Qed.

End TrackerMore.

(** ** async: more on the request processor *)

Section AsyncMore.

Import retry async.

Context {T R W : Type}.
Variable zeroR : R.
Variable DurationString : Duration -> string.
Variable Process : Context -> Request T -> W -> (R * option error) * W.

Local Abbreviation step := (async.step zeroR DurationString Process).
Local Abbreviation run := (async.run zeroR DurationString Process).
Local Abbreviation buildResponse := (async.buildResponse zeroR DurationString Process).

Implicit Types (s : system T R W) (a : action T) (p : AsyncRequestProcessor T R).

Ltac caseStep H s' :=
  repeat match type of H with
         | Some _ = Some _ => injection H as H; subst s'
         | None = Some _ => discriminate H
         | (if ?b then _ else _) = Some _ => destruct b eqn:?
         | match ?x with _ => _ end = Some _ => destruct x eqn:?
         end.

Lemma step_bounded a s s' :
  step a s = Some s' ->
  bounded s -> bounded s' /\ bufferSize (proc s') = bufferSize (proc s).
Proof.
  intros Hstep [Hreq Hresp].
  unfold async.step in Hstep.
  destruct a; unfold stepStart, stepSubmit, stepStopCancel, stepStopWait, stepStopClose,
    stepReceive, stepWorkerSelect, stepWorkerBuild in Hstep.
  all: caseStep Hstep s'.
  all: unfold bounded, hasRoom in *; simpl in *.
  all: repeat match goal with
              | H : (_ <? _)%nat = true |- _ => apply Nat.ltb_lt in H
              | H : requestChan _ = _ |- _ => rewrite H in *
              | H : responseChan _ = _ |- _ => rewrite H in *
              end.
  all: rewrite ?length_app; simpl in *.
  all: repeat split; try lia.
Qed.

Lemma run_bounded (tr : list (action T)) :
  forall s s', run tr s = Some s' ->
    bounded s -> bounded s' /\ bufferSize (proc s') = bufferSize (proc s).
Proof.
  induction tr as [|a tr IH]; intros s s' Hrun Hs; simpl in Hrun.
  - injection Hrun as <-. now split.
  - destruct (step a s) as [s1|] eqn:E; [|discriminate].
    destruct (step_bounded a s s1 E Hs) as [H1 Hb1].
    destruct (IH s1 s' Hrun H1) as [H2 Hb2]. split; [exact H2 | congruence].
Qed.

(** X13: for a processor with buffered channels (capacity at least 1),
    with or without a retry policy and however the goroutines interleave,
    neither the input queue nor the output queue ever holds more entries
    than the capacity given at construction. *)
Theorem queues_stay_within_capacity (capacity : nat) (cfg : option RetryConfig) (w0 : W)
    (tr : list (action T)) s :
  (1 <= capacity)%nat ->
  run tr (initial (NewAsyncRequstProcessor capacity cfg) w0) = Some s ->
  (List.length (requestChan (proc s)) <= capacity)%nat
  /\ (List.length (responseChan (proc s)) <= capacity)%nat.
Proof.
  intros _ Hrun.
  destruct (run_bounded tr _ _ Hrun) as [[H1 H2] Hb].
  - split; simpl; lia.
  - simpl in Hb. rewrite Hb in *. now split.
Qed.

Lemma started_consistent (capacity : nat) (cfg : RetryConfig) (w0 : W) s1 :
  run [Start] (initial (NewAsyncRequstProcessor capacity (Some cfg)) w0) = Some s1 ->
  consistent s1.
Proof.
  intros E1. simpl in E1. injection E1 as <-. unfold consistent. simpl.
  repeat split; try discriminate; auto. intros [H | H]; discriminate.
Qed.

Lemma run_started_consistent (capacity : nat) (cfg : RetryConfig) (w0 : W)
    (tr : list (action T)) s :
  run (Start :: tr) (initial (NewAsyncRequstProcessor capacity (Some cfg)) w0) = Some s ->
  consistent s.
Proof.
  intros Hrun. change (Start :: tr) with ([Start] ++ tr) in Hrun.
  rewrite (run_app zeroR DurationString Process) in Hrun.
  destruct (run [Start] (initial (NewAsyncRequstProcessor capacity (Some cfg)) w0))
    as [s1|] eqn:E1; [|discriminate].
  eapply run_consistent; [exact Hrun | eapply started_consistent; exact E1].
Qed.

(** X14: at every moment of a started processor with a retry policy and
    buffered channels (capacity at least 1), the accepted requests are, in the order of acceptance, those the worker is
    done with, then the one it holds (at most one), then those still in the
    input queue: requests are taken strictly in arrival order, one at a
    time, none lost or duplicated; and what consumers received followed by
    the output queue is the sequence of pushed responses, in that order. *)
Theorem requests_are_taken_in_order (capacity : nat) (cfg : RetryConfig) (w0 : W)
    (tr : list (action T)) s :
  (1 <= capacity)%nat ->
  run (Start :: tr) (initial (NewAsyncRequstProcessor capacity (Some cfg)) w0) = Some s ->
  accepted s = processed s ++ inflight (worker s) ++ requestChan (proc s)
  /\ (List.length (inflight (worker s)) <= 1)%nat
  /\ delivered s ++ responseChan (proc s) = pushed s.
Proof.
  intros _ Hrun. destruct (run_started_consistent _ _ _ _ _ Hrun) as (_ & Hacc & Hpush & _).
  split; [exact Hacc|]. split; [|exact Hpush].
  destruct (worker s); simpl; lia.
Qed.

Lemma step_allPushed a s s' :
  step a s = Some s' -> consistent s -> allPushed s -> allPushed s'.
Proof.
  intros Hstep
    (Hcfg & Hacc & Hpush & Hids & Hid & Hstarted & Hwg & Hnot & Hdone & Hstop & Hclosed) Hall.
  unfold async.step in Hstep.
  destruct a; unfold stepStart, stepSubmit, stepStopCancel, stepStopWait, stepStopClose,
    stepReceive, stepWorkerSelect, stepWorkerBuild in Hstep.
  all: caseStep Hstep s'.
  all: unfold allPushed in *; simpl in *.
  all: intros Hst; try discriminate.
  all: try solve [ auto ].
  all: try solve [ apply Forall_app; split; [auto | repeat constructor] ].
  all: try solve [ specialize (Hnot Hst); congruence ].
Qed.

Lemma run_allPushed (tr : list (action T)) :
  forall s s', run tr s = Some s' -> consistent s -> allPushed s -> allPushed s'.
Proof.
  induction tr as [|a tr IH]; intros s s' Hrun Hs Hall; simpl in Hrun.
  - now injection Hrun as <-.
  - destruct (step a s) as [s1|] eqn:E; [|discriminate].
    eapply IH; [exact Hrun | eapply step_consistent; eassumption |].
    eapply step_allPushed; eassumption.
Qed.

Lemma pushed_all (l : list (Request T * Response R * bool)) :
  Forall (fun h => snd h = true) l ->
  map (fun h => snd (fst h)) (filter (fun h => snd h) l) = map (fun h => snd (fst h)) l.
Proof.
  induction 1 as [|h l Hh Hl IH]; [reflexivity|]. simpl. rewrite Hh. simpl. now rewrite IH.
Qed.

(** X15: for a started processor with a retry policy and buffered
    channels (capacity at least 1), as long as [Stop] has not been called
    no response is discarded:
    every request the worker is done with has its response pushed to the
    output queue, so the responses received or queued are, in order and
    with the same identifiers, those of the processed requests. *)
Theorem nothing_is_discarded_before_Stop (capacity : nat) (cfg : RetryConfig) (w0 : W)
    (tr : list (action T)) s :
  (1 <= capacity)%nat ->
  run (Start :: tr) (initial (NewAsyncRequstProcessor capacity (Some cfg)) w0) = Some s ->
  stopper s = stopNotCalled ->
  Forall (fun h => snd h = true) (handled s)
  /\ delivered s ++ responseChan (proc s) = map (fun h => snd (fst h)) (handled s)
  /\ map RequestID (delivered s ++ responseChan (proc s)) = map ID (processed s).
Proof.
  intros _ Hrun Hst.
  change (Start :: tr) with ([Start] ++ tr) in Hrun.
  rewrite (run_app zeroR DurationString Process) in Hrun.
  destruct (run [Start] (initial (NewAsyncRequstProcessor capacity (Some cfg)) w0))
    as [s1|] eqn:E1; [|discriminate].
  pose proof (started_consistent _ _ _ _ E1) as H1.
  assert (Hall1 : allPushed s1).
  { simpl in E1. injection E1 as <-. intros _. constructor. }
  pose proof (run_allPushed _ _ _ Hrun H1 Hall1 Hst) as Hall.
  destruct (run_consistent zeroR DurationString Process _ _ _ Hrun H1)
    as (_ & _ & Hpush & Hids & _).
  split; [exact Hall|].
  assert (Heq : delivered s ++ responseChan (proc s)
                = map (fun h => snd (fst h)) (handled s)).
  { rewrite Hpush. unfold pushed. now apply pushed_all. }
  split; [exact Heq|].
  rewrite Heq. unfold processed. rewrite !map_map.
  clear - Hids. induction Hids as [|h l Hh Hl IH]; [reflexivity|]. simpl. now rewrite Hh, IH.
Qed.





(** X18: with a retry policy, a request whose processing succeeds at the
    first attempt is processed by exactly one invocation, made under the
    worker's context with the policy's [MaxDuration] as timeout, whatever
    the [select]s of the retry loop would find: the response carries the
    request's identifier, the data returned, no error and the time between
    the two clock readings. *)
Theorem first_attempt_success_is_not_retried p (cfg : RetryConfig) (req : Request T)
    (sels : list selected) (startClock endClock : Time) (w w' : W) (data : R) :
  retryConfig p = Some cfg ->
  Process (WithTimeout (ctx p) (MaxDuration cfg)) req w = ((data, None), w') ->
  buildResponse p req sels startClock endClock w
  = Ok (Some ({| RequestID := ID req;
                 ResponseData := data;
                 ResponseError := None;
                 ResponseDuration := Since endClock startClock |}, w')).
Proof.
  intros Hcfg Hproc. unfold async.buildResponse. rewrite Hcfg.
  unfold RetryWithBackoff.
  rewrite (retryLoop_success DurationString (ctx p) cfg (retried Process p cfg req)
             [] sels (InitialInterval cfg) (zeroR, w) (data, w')); [reflexivity|].
  unfold retried, processWith. simpl. now rewrite Hproc.
Qed.

End AsyncMore.

(** ** The added properties on the inputs of the tests *)

Section RetryMoreWitnesses.

Import retry scenarios.


Lemma RetryWithBackoff_returned_witness :
  exists k,
    (k <= List.length (repeat afterInterval 2 ++ [timerC]))%nat
    /\ 3%nat = afterCalls tt succeedsThirdTime (S k) 0%nat
    /\ (forall j, (j < k)%nat ->
          exists e, fst (succeedsThirdTime tt (afterCalls tt succeedsThirdTime j 0%nat)) = Some e
                    /\ isNonRetriable (Some e) [] = false)
    /\ match fst (succeedsThirdTime tt (afterCalls tt succeedsThirdTime k 0%nat)) with
       | None => @None error = None
       | Some e =>
           (None = Some e /\ isNonRetriable (Some e) [] = true)
           \/ (isNonRetriable (Some e) [] = false
               /\ (None = Some (timedOut nanoseconds testConfig e)
                   \/ exists ctxErr,
                       In (ctxDone ctxErr) (repeat afterInterval 2 ++ [timerC])
                       /\ None = Some ctxErr))
       end.
Proof.
  apply (RetryWithBackoff_returned nanoseconds tt testConfig succeedsThirdTime []
           (repeat afterInterval 2 ++ [timerC]) 0%nat None 3%nat).
  vm_compute. reflexivity.
Defined.

Lemma empty_pattern_ends_retrying_witness :
  RetryWithBackoff nanoseconds tt testConfig alwaysFails [""%string; "timeout"%string]
    [afterInterval; timerC] 0%nat
  = (Returned (Some (errorString "connection refused")), 1%nat).
Proof.
  apply (proj2 (empty_pattern_ends_retrying nanoseconds tt testConfig alwaysFails
                  [""%string; "timeout"%string] (errorString "connection refused")
                  (or_introl eq_refl))).
  reflexivity.
Defined.


End RetryMoreWitnesses.

Section BreakerMoreWitnesses.

Import circuitbreaker scenarios.


Lemma success_resets_the_failure_count_witness :
  let cb := snd (fst (ExecuteAll testBreaker
                        [failingCall noon; failingCall (noon + 1 * Millisecond)] freshWorld)) in
  let calls := [failingCall (noon + 3 * Millisecond); failingCall (noon + 4 * Millisecond)] in
  failureCount cb = 2
  /\ GetState (snd (fst (ExecuteAll cb (successfulCall (noon + 2 * Millisecond) :: calls)
                           freshWorld))) = StateClosed
  /\ failureCount (snd (fst (ExecuteAll cb (successfulCall (noon + 2 * Millisecond) :: calls)
                               freshWorld))) = Z.of_nat (List.length calls).
Proof.
  intros cb calls. split; [reflexivity|].
  apply (success_resets_the_failure_count cb (successfulCall (noon + 2 * Millisecond)) calls
           freshWorld).
  - reflexivity.
  - vm_compute. discriminate.
  - intros w. reflexivity.
  - repeat constructor; intros w; discriminate.
  - vm_compute. reflexivity.
Defined.


Lemma rejected_calls_change_nothing_witness :
  let calls := [successfulCall (noon + 3 * Millisecond);
                successfulCall (noon + 50 * Millisecond)] in
  ExecuteAll openedBreaker calls freshWorld
  = (map (fun _ => Some errCircuitOpen) calls, openedBreaker, freshWorld)
  /\ fst (fst (ExecuteAll openedBreaker (calls ++ [successfulCall (noon + 202 * Millisecond)])
                 freshWorld))
     = map (fun _ => Some errCircuitOpen) calls ++ [None].
Proof.
  intros calls.
  destruct (rejected_calls_change_nothing noon calls openedBreaker freshWorld) as [H1 H2].
  - reflexivity.
  - vm_compute. discriminate.
  - repeat constructor; vm_compute; discriminate.
  - split; [exact H1|].
    apply (H2 (successfulCall (noon + 202 * Millisecond))). vm_compute. reflexivity.
Defined.

End BreakerMoreWitnesses.

Section TrackerMoreWitnesses.

Import tx scenarios.

Lemma IncrementAndGet_hands_out_distinct_numbers_witness :
  let n := fst (IncrementAndGet refetchedTracker) in
  map Nonce (snd (IncrementAndGetTimes 3 n))
  = map (fun i : nat => Nonce (nonceData n) + Z.of_nat i) (seq 1 3)
  /\ NoDup (map Nonce (snd (IncrementAndGetTimes 3 n)))
  /\ Forall (fun r => Accnum r = Accnum (nonceData n)) (snd (IncrementAndGetTimes 3 n)).
Proof.
  intros n.
  apply (proj1 (IncrementAndGet_hands_out_distinct_numbers 3 n eq_refl)).
  - vm_compute. discriminate.
  - vm_compute. reflexivity.
Defined.

Lemma refetch_window_witness :
  (fst (ForceRefetch nanoseconds refetchedTracker (noon + 1 * Second) (fetched 20)
          (noon + 1 * Second)) = refetchedTracker
   /\ snd (snd (ForceRefetch nanoseconds refetchedTracker (noon + 1 * Second) (fetched 20)
                  (noon + 1 * Second)))
      = Some (errTooSoon nanoseconds (Since (noon + 1 * Second) noon)
                (forceRefetchInterval testTracker)))
  /\ ForceRefetch nanoseconds testTracker (noon + 1 * Second) (fetched 20) (noon + 1 * Second)
     = refetchAndUpdateNonce testTracker (fetched 20) (noon + 1 * Second).
Proof.
  split.
  - apply (proj1 (refetch_window nanoseconds testTracker noon (fetched 10) noon
                    refetchedTracker {| Nonce := 10; Accnum := 1 |} None eq_refl) eq_refl).
    + vm_compute. discriminate.
    + vm_compute. discriminate.
  - apply (proj2 (refetch_window nanoseconds testTracker noon (ctxDone DeadlineExceeded) noon
                    testTracker zeroNonceResponse (Some DeadlineExceeded) eq_refl)).
    + discriminate.
    + vm_compute. reflexivity.
    + vm_compute. discriminate.
Defined.

End TrackerMoreWitnesses.

Section AsyncMoreWitnesses.

Import retry async scenarios.

Lemma queues_stay_within_capacity_witness :
  exists s,
    run 0%nat nanoseconds double (Start :: submitBoth ++ StopCancel :: drainAndDiscardFirst)
      (initial (NewAsyncRequstProcessor 2 (Some testConfig)) 0%nat) = Some s
    /\ (List.length (requestChan (proc s)) <= 2)%nat
    /\ (List.length (responseChan (proc s)) <= 2)%nat.
Proof.
  destruct (run 0%nat nanoseconds double
              (Start :: submitBoth ++ StopCancel :: drainAndDiscardFirst)
              (initial (NewAsyncRequstProcessor 2 (Some testConfig)) 0%nat)) as [s|] eqn:Hrun;
    [|vm_compute in Hrun; discriminate].
  exists s. split; [reflexivity|].
  exact (queues_stay_within_capacity 0%nat nanoseconds double 2 (Some testConfig) 0%nat
           (Start :: submitBoth ++ StopCancel :: drainAndDiscardFirst) s
           (le_S 1 1 (le_n 1)) Hrun).
Defined.

Lemma requests_are_taken_in_order_witness :
  exists s,
    run 0%nat nanoseconds double (Start :: submitBoth ++ processFirst)
      (initial (NewAsyncRequstProcessor 2 (Some testConfig)) 0%nat) = Some s
    /\ accepted s = processed s ++ inflight (worker s) ++ requestChan (proc s)
    /\ (List.length (inflight (worker s)) <= 1)%nat
    /\ delivered s ++ responseChan (proc s) = pushed s.
Proof.
  destruct (run 0%nat nanoseconds double (Start :: submitBoth ++ processFirst)
              (initial (NewAsyncRequstProcessor 2 (Some testConfig)) 0%nat)) as [s|] eqn:Hrun;
    [|vm_compute in Hrun; discriminate].
  exists s. split; [reflexivity|].
  exact (requests_are_taken_in_order 0%nat nanoseconds double 2 testConfig 0%nat
           (submitBoth ++ processFirst) s (le_S 1 1 (le_n 1)) Hrun).
Defined.

Lemma nothing_is_discarded_before_Stop_witness :
  exists s,
    run 0%nat nanoseconds double (Start :: submitBoth ++ processFirst)
      (initial (NewAsyncRequstProcessor 2 (Some testConfig)) 0%nat) = Some s
    /\ stopper s = stopNotCalled
    /\ Forall (fun h => snd h = true) (handled s)
    /\ delivered s ++ responseChan (proc s) = map (fun h => snd (fst h)) (handled s)
    /\ map RequestID (delivered s ++ responseChan (proc s)) = map ID (processed s).
Proof.
  destruct (run 0%nat nanoseconds double (Start :: submitBoth ++ processFirst)
              (initial (NewAsyncRequstProcessor 2 (Some testConfig)) 0%nat)) as [s|] eqn:Hrun;
    [|vm_compute in Hrun; discriminate].
  assert (Hst : stopper s = stopNotCalled).
  { vm_compute in Hrun. injection Hrun as <-. reflexivity. }
  exists s. split; [reflexivity|]. split; [exact Hst|].
  exact (nothing_is_discarded_before_Stop 0%nat nanoseconds double 2 testConfig 0%nat
           (submitBoth ++ processFirst) s (le_S 1 1 (le_n 1)) Hrun Hst).
Defined.



Lemma first_attempt_success_is_not_retried_witness :
  buildResponse 0%nat nanoseconds double testProcessor request1 [timerC] noon
    (noon + 1 * Millisecond) 0%nat
  = Ok (Some ({| RequestID := "1"; ResponseData := 2%nat; ResponseError := None;
                 ResponseDuration := Since (noon + 1 * Millisecond) noon |}, 1%nat)).
Proof.
  apply (first_attempt_success_is_not_retried 0%nat nanoseconds double testProcessor testConfig
           request1 [timerC] noon (noon + 1 * Millisecond) 0%nat 1%nat 2%nat);
    reflexivity.
Defined.

End AsyncMoreWitnesses.
